(** * github-releases-notifier: the Dispatcher of [main.go] and the Checker

    A shallow embedding of [main.go] (configuration record, logger level
    selection, start-up check, the dispatch loop over the release channel)
    together with a model of the Checker's polling state machine, and the
    properties of the specification stated over them. *)

From Stdlib Require Import ZArith String Ascii Bool List Lia.
From stdpp Require Import base option list gmap strings.
Import ListNotations.

Local Open Scope string_scope.
Local Open Scope Z_scope.
Local Open Scope list_scope.

(** ** Data model *)

(** Modelled from the spec: the [Release] value type (declared in a file of
    the repository other than [main.go]): display name, git tag, publication
    instant and browser link. *)
Record Release := mkRelease {
  Release_Name : string;
  Release_Tag : string;
  Release_PublishedAt : Z;
  Release_URL : string
}.

(** Modelled from the spec: the [Repository] value type (declared in a file
    of the repository other than [main.go]): owner, name, URL and the
    embedded latest release. *)
Record Repository := mkRepository {
  Repository_Owner : string;
  Repository_Name : string;
  Repository_URL : string;
  Repository_Release : Release
}.

(** [type Config struct] of [main.go], field by field.  Go's [int] and
    [time.Duration] are kept as [Z]; the code only compares
    [GitlabProjectID] with zero. *)
Record Config := mkConfig {
  GithubToken : string;
  GitlabAPIToken : string;
  GitlabHostname : string;
  GitlabProjectID : Z;
  GitlabLabels : string;
  Interval : Z;
  LogLevel : string;
  Repositories : list string;
  SlackHook : string;
  IgnoreNonstable : bool
}.

(** The literal [Config{Interval: time.Hour, LogLevel: "info"}] that [main]
    hands to [arg.MustParse]: the defaults, every other field at its zero
    value. *)
Definition initial_Config : Config :=
  {| GithubToken := ""; GitlabAPIToken := ""; GitlabHostname := "";
     GitlabProjectID := 0; GitlabLabels := ""; Interval := 3600000000000;
     LogLevel := "info"; Repositories := []; SlackHook := "";
     IgnoreNonstable := false |}.

(** [func (c Config) Token() *oauth2.Token]: wraps the token string, empty
    or not, and never fails. *)
Record oauth2_Token := mkToken { AccessToken : string }.

Definition Token (c : Config) : oauth2_Token :=
  {| AccessToken := GithubToken c |}.

(** A Go [error] value is represented by its message; [nil] is [None]. *)
Definition error : Type := string.

(** go-kit levels and the four filters [level.AllowDebug()], ... *)
Inductive Level := LevelDebug | LevelInfo | LevelWarn | LevelError.

Inductive Allowed := AllowDebug | AllowInfo | AllowWarn | AllowError.

Definition allows (f : Allowed) (l : Level) : bool :=
  match f, l with
  | AllowDebug, _ => true
  | AllowInfo, LevelDebug => false
  | AllowInfo, _ => true
  | AllowWarn, (LevelWarn | LevelError) => true
  | AllowWarn, _ => false
  | AllowError, LevelError => true
  | AllowError, _ => false
  end.

Inductive Value := VString (s : string) | VError (e : error).

(** One call [level.X(logger).Log(k1, v1, k2, v2, ...)]: the severity, the
    call site that the logger's ["caller"] valuer reports (the source line of
    the call in [main.go]) and the key/value pairs given at the call. *)
Record LogRecord := mkLogRecord {
  severity : Level;
  caller : Z;
  keyvals : list (string * Value)
}.

(** The two senders built in [main]. *)
Record SlackSender := mkSlackSender { Hook : string }.

Record GitlabSender := mkGitlabSender {
  Hostname : string;
  APIToken : string;
  ProjectID : Z;
  Labels : string;
  logger : Allowed
}.

Inductive Sink := Slack | Gitlab.

(** What the main goroutine does that can be observed from outside. *)
Inductive Action :=
| Log (r : LogRecord)
| Send (s : Sink) (repository : Repository).

(** How a run of [main] stands: it called [os.Exit], it returned from
    [main] (exit status 0), or it is blocked receiving from the channel. *)
Inductive Outcome := Exited (code : Z) | Receiving.

(** What the Checker goroutine puts on [releases]: the values sent so far,
    and whether the channel has been closed after them. *)
Record Channel := mkChannel {
  sent : list Repository;
  closed : bool
}.

(** ** [strings.ToLower] *)

Definition isUpper (c : ascii) : bool :=
  ((65 <=? Z.of_nat (nat_of_ascii c)) && (Z.of_nat (nat_of_ascii c) <=? 90))%Z.

Definition lowerByte (c : ascii) : ascii :=
  if isUpper c then ascii_of_nat (nat_of_ascii c + 32) else c.

Fixpoint isASCII (s : string) : bool :=
  match s with
  | EmptyString => true
  | String c s' => (Z.of_nat (nat_of_ascii c) <? 128)%Z && isASCII s'
  end.

Fixpoint lowerBytes (s : string) : string :=
  match s with
  | EmptyString => EmptyString
  | String c s' => String (lowerByte c) (lowerBytes s')
  end.

(** Two strings that are equal up to the case of their ASCII letters,
    said without lowering: [s] has, at each position, the letter of [l] or
    its capital. Used to state that LOG_LEVEL is matched in any case. *)
Definition isLower (c : ascii) : bool :=
  ((97 <=? Z.of_nat (nat_of_ascii c)) && (Z.of_nat (nat_of_ascii c) <=? 122))%Z.

Definition capital (c : ascii) : ascii :=
  if isLower c then ascii_of_nat (nat_of_ascii c - 32) else c.

Fixpoint all_lower (l : string) : bool :=
  match l with
  | EmptyString => true
  | String a l' => isLower a && all_lower l'
  end.

Fixpoint case_variant (l s : string) : bool :=
  match l, s with
  | EmptyString, EmptyString => true
  | String a l', String b s' =>
      (Ascii.eqb b a || Ascii.eqb b (capital a)) && case_variant l' s'
  | _, _ => false
  end.

(** ** Logger level selection: the [switch] of [main] *)

Definition NewFilter (lowered : string) : Allowed :=
  if decide (lowered = "debug") then AllowDebug
  else if decide (lowered = "warn") then AllowWarn
  else if decide (lowered = "error") then AllowError
  else AllowInfo.

(** ** The log records [main] writes *)

Definition no_repositories : LogRecord :=
  {| severity := LevelError; caller := 64;
     keyvals := [("msg", VString "no repositories wo watch")] |}.

Definition waiting : LogRecord :=
  {| severity := LevelInfo; caller := 88;
     keyvals := [("msg", VString "waiting for new releases")] |}.

Definition not_notifying (repository : Repository) : LogRecord :=
  {| severity := LevelDebug; caller := 91;
     keyvals := [("msg", VString "not notifying about non-stable version");
                 ("version", VString (Release_Name (Repository_Release repository)))] |}.

Definition slack_failed (err : error) : LogRecord :=
  {| severity := LevelWarn; caller := 96;
     keyvals := [("msg", VString "failed to send release to messenger");
                 ("err", VError err)] |}.

Definition gitlab_failed (err : error) : LogRecord :=
  {| severity := LevelWarn; caller := 105;
     keyvals := [("msg", VString "failed to send release to messenger");
                 ("err", VError err)] |}.

(** The guard of line 103. *)
Definition gitlab_configured (c : Config) : bool :=
  negb (bool_decide (GitlabAPIToken c = ""))
  && negb (bool_decide (GitlabHostname c = ""))
  && (0 <? GitlabProjectID c).

(** The guard of line 94. *)
Definition slack_configured (c : Config) : bool :=
  negb (bool_decide (SlackHook c = "")).

(** The sinks that the spec calls enabled, in its fixed order: chat-webhook
    first, issue-tracker second. *)
Definition enabled_sinks (c : Config) : list Sink :=
  (if slack_configured c then [Slack] else [])
  ++ (if gitlab_configured c then [Gitlab] else []).

(** Projections of a trace. *)
Definition sends (t : list Action) : list (Sink * Repository) :=
  flat_map (fun a => match a with Send s r => [(s, r)] | Log _ => [] end) t.

Definition records (t : list Action) : list LogRecord :=
  flat_map (fun a => match a with Log r => [r] | Send _ _ => [] end) t.

(** What reaches standard output through the level filter. *)
Definition written (f : Allowed) (t : list Action) : list LogRecord :=
  filter (fun r => allows f (severity r) = true) (records t).

(** ** The Checker

    [checker.Run] is started by [main] but lives in another file of the
    repository; its polling state machine is taken from the spec. *)
Module Checker.

(** Modelled from the spec: the results of the Upstream Client's
    [LatestRelease(owner, name)], which is not part of [main.go]: the latest
    release with the owning repository's URL, [NotFound], or an error. *)
Inductive UpstreamError := TransientError | FatalAuthError.

Inductive PollResult :=
| Found (url : string) (R : Release)
| NotFound
| Failed (e : UpstreamError).

(** What the forge answers during one tick, per coordinate. *)
Abbreviation Upstream := (string -> string -> PollResult).

(** Modelled from the spec: repositories are compared by (owner, name)
    case-insensitively; the SeenTable is keyed by that coordinate. *)
Definition key (e : string * string) : string * string :=
  (lowerBytes e.1, lowerBytes e.2).

Abbreviation SeenTable := (gmap (string * string) string).

Definition isSpace (c : ascii) : bool :=
  match nat_of_ascii c with
  | 9%nat | 10%nat | 11%nat | 12%nat | 13%nat | 32%nat => true
  | _ => false
  end.

Fixpoint trimLeft (s : string) : string :=
  match s with
  | EmptyString => EmptyString
  | String c s' => if isSpace c then trimLeft s' else s
  end.

Fixpoint trimRight (s : string) : string :=
  match s with
  | EmptyString => EmptyString
  | String c s' =>
      match trimRight s' with
      | EmptyString => if isSpace c then EmptyString else String c EmptyString
      | t => String c t
      end
  end.

Fixpoint split_slash (s : string) : list string :=
  match s with
  | EmptyString => [EmptyString]
  | String c s' =>
      if Ascii.eqb c "/" then EmptyString :: split_slash s'
      else match split_slash s' with
           | h :: t => String c h :: t
           | [] => [String c EmptyString]
           end
  end.

(** Modelled from the spec: parsing of a watch-list entry, done by the
    Checker outside [main.go]: whitespace around the entry is trimmed and
    the entry must contain exactly one slash. *)
Definition parse_entry (entry : string) : option (string * string) :=
  match split_slash (trimRight (trimLeft entry)) with
  | [owner; name] => Some (owner, name)
  | _ => None
  end.

(** Modelled from the spec: duplicates of the watch list are dropped on
    ingest, the first occurrence of a coordinate is kept. *)
Fixpoint dedup (seen : list (string * string)) (l : list (string * string))
  : list (string * string) :=
  match l with
  | [] => []
  | e :: l' =>
      if bool_decide (key e ∈ seen) then dedup seen l'
      else e :: dedup (key e :: seen) l'
  end.

Definition ingest (watchSpec : list string) : list (string * string) :=
  dedup [] (omap parse_entry watchSpec).

Inductive Output :=
| Emit (repository : Repository)
| Logged (l : Level) (owner name : string)
| Rejected (entry : string).

(** Modelled from the spec: an entry that does not parse is logged as an
    error and skipped. *)
Definition rejected (watchSpec : list string) : list Output :=
  flat_map (fun entry => match parse_entry entry with
                         | Some _ => []
                         | None => [Rejected entry]
                         end) watchSpec.

(** Modelled from the spec: the per-repository state machine of the
    Checker's poll step (section 4.3), one row of the table per branch. *)
Definition poll (upstream : Upstream) (seen : SeenTable) (e : string * string)
  : list Output * SeenTable :=
  match upstream e.1 e.2 with
  | Found url R =>
      match seen !! key e with
      | None => ([], <[key e := Release_Tag R]> seen)
      | Some T =>
          if bool_decide (Release_Tag R = T) then ([], seen)
          else ([Emit {| Repository_Owner := e.1; Repository_Name := e.2;
                         Repository_URL := url; Repository_Release := R |}],
                <[key e := Release_Tag R]> seen)
      end
  | NotFound => ([Logged LevelDebug e.1 e.2], seen)
  | Failed TransientError => ([Logged LevelWarn e.1 e.2], seen)
  | Failed FatalAuthError => ([Logged LevelError e.1 e.2], seen)
  end.

(** Modelled from the spec: one tick iterates the watch list in order. *)
Fixpoint tick (upstream : Upstream) (entries : list (string * string))
  (seen : SeenTable) : list Output * SeenTable :=
  match entries with
  | [] => ([], seen)
  | e :: rest =>
      let '(o1, seen1) := poll upstream seen e in
      let '(o2, seen2) := tick upstream rest seen1 in
      (o1 ++ o2, seen2)
  end.

(** Modelled from the spec: the ticks of [Run], one upstream snapshot per
    tick; the real loop never ends, this is any finite prefix of it. *)
Fixpoint ticks (upstreams : list Upstream) (entries : list (string * string))
  (seen : SeenTable) : list Output * SeenTable :=
  match upstreams with
  | [] => ([], seen)
  | u :: us =>
      let '(o1, seen1) := tick u entries seen in
      let '(o2, seen2) := ticks us entries seen1 in
      (o1 ++ o2, seen2)
  end.

(** Modelled from the spec: [Run(interval, watchSpec, out)] from the empty
    SeenTable of process start. *)
Definition Run (watchSpec : list string) (upstreams : list Upstream)
  : list Output * SeenTable :=
  let '(o, seen) := ticks upstreams (ingest watchSpec) ∅ in
  (rejected watchSpec ++ o, seen).

(** The repositories published on the output stream. *)
Definition emitted (o : list Output) : list Repository :=
  flat_map (fun x => match x with Emit r => [r] | _ => [] end) o.

(** The events among [l] for one coordinate, and for one tag of it. *)
Definition for_repository (k : string * string) (l : list Repository)
  : list Repository :=
  filter (fun r => key (Repository_Owner r, Repository_Name r) = k) l.


(** Modelled from the spec: the same table read for one repository alone:
    from its SeenTable entry and the poll result, the events emitted and the
    entry afterwards. *)
Definition observe (e : string * string) (st : option string) (p : PollResult)
  : list Repository * option string :=
  match p with
  | Found url R =>
      match st with
      | None => ([], Some (Release_Tag R))
      | Some T =>
          if bool_decide (Release_Tag R = T) then ([], Some T)
          else ([{| Repository_Owner := e.1; Repository_Name := e.2;
                    Repository_URL := url; Repository_Release := R |}],
                Some (Release_Tag R))
      end
  | _ => ([], st)
  end.



End Checker.

(** ** Sample values for the examples *)

Definition release_of (tag : string) : Release :=
  {| Release_Name := tag; Release_Tag := tag; Release_PublishedAt := 0;
     Release_URL := ("https://github.example/releases/tag/" ++ tag)%string |}.

Definition hello_world (tag : string) : Repository :=
  {| Repository_Owner := "octocat"; Repository_Name := "hello-world";
     Repository_URL := "https://github.com/octocat/hello-world";
     Repository_Release := release_of tag |}.

Definition prometheus (tag : string) : Repository :=
  {| Repository_Owner := "prometheus"; Repository_Name := "prometheus";
     Repository_URL := "https://github.com/prometheus/prometheus";
     Repository_Release := release_of tag |}.

(** A classifier by substring, for the examples only. *)
Definition has_rc (r : Release) : bool :=
  match index 0 "rc" (Release_Tag r) with Some _ => true | None => false end.

(** A watcher with no sink configured. *)
Definition no_sink : Config :=
  {| GithubToken := "ghp_token"; GitlabAPIToken := ""; GitlabHostname := "";
     GitlabProjectID := 0; GitlabLabels := ""; Interval := 3600000000000;
     LogLevel := "info"; Repositories := ["octocat/hello-world"];
     SlackHook := ""; IgnoreNonstable := false |}.

(** Both sinks configured. *)
Definition both_sinks : Config :=
  {| GithubToken := "ghp_token"; GitlabAPIToken := "glpat";
     GitlabHostname := "gitlab.example.org"; GitlabProjectID := 42;
     GitlabLabels := "release"; Interval := 3600000000000;
     LogLevel := "info";
     Repositories := ["octocat/hello-world"; "prometheus/prometheus"];
     SlackHook := "https://hooks.example.org/T0"; IgnoreNonstable := true |}.

(** Only the issue tracker configured. *)
Definition gitlab_only : Config :=
  {| GithubToken := "ghp_token"; GitlabAPIToken := "glpat";
     GitlabHostname := "gitlab.example.org"; GitlabProjectID := 42;
     GitlabLabels := "release"; Interval := 3600000000000;
     LogLevel := "info"; Repositories := ["octocat/hello-world"];
     SlackHook := ""; IgnoreNonstable := false |}.

(** Both sinks configured, the forge token left empty. *)
Definition no_token : Config :=
  {| GithubToken := ""; GitlabAPIToken := "glpat";
     GitlabHostname := "gitlab.example.org"; GitlabProjectID := 42;
     GitlabLabels := ""; Interval := 3600000000000;
     LogLevel := "info"; Repositories := ["octocat/hello-world"];
     SlackHook := "https://hooks.example.org/T0"; IgnoreNonstable := false |}.

(** An empty watch list, and a LOG_LEVEL that is not a level name. *)
Definition no_repos : Config :=
  {| GithubToken := "ghp_token"; GitlabAPIToken := ""; GitlabHostname := "";
     GitlabProjectID := 0; GitlabLabels := ""; Interval := 3600000000000;
     LogLevel := "info"; Repositories := [];
     SlackHook := "https://hooks.example.org/T0"; IgnoreNonstable := false |}.

Definition verbose_level : Config :=
  {| GithubToken := "ghp_token"; GitlabAPIToken := ""; GitlabHostname := "";
     GitlabProjectID := 0; GitlabLabels := ""; Interval := 3600000000000;
     LogLevel := "Verbose"; Repositories := ["octocat/hello-world"];
     SlackHook := ""; IgnoreNonstable := false |}.

(** No sink configured, the stability filter on, LOG_LEVEL debug in mixed
    case. *)
Definition no_sink_debug : Config :=
  {| GithubToken := "ghp_token"; GitlabAPIToken := ""; GitlabHostname := "";
     GitlabProjectID := 0; GitlabLabels := ""; Interval := 3600000000000;
     LogLevel := "DeBuG"; Repositories := ["octocat/hello-world"];
     SlackHook := ""; IgnoreNonstable := true |}.

(** An open channel on which one release has been sent. *)
Definition one_release : Channel :=
  {| sent := [hello_world "v1.1.0"]; closed := false |}.

(** Sample sinks over a world that counts the deliveries made. *)
Definition delivers {S : Type} (_ : S) (_ : Repository) (n : nat)
  : option error * nat := (None, Datatypes.S n).

Definition answers_500 {S : Type} (_ : S) (_ : Repository) (n : nat)
  : option error * nat := (Some "unexpected status code 500", n).

Definition fails_for_octocat {S : Type} (_ : S) (r : Repository) (n : nat)
  : option error * nat :=
  if bool_decide (Repository_Owner r = "octocat")
  then (Some "unexpected status code 500", n)
  else (None, Datatypes.S n).

(** Sample sinks that refuse a sender which is not configured. *)
Definition slack_needs_hook (sl : SlackSender) (_ : Repository) (n : nat)
  : option error * nat :=
  if bool_decide (Hook sl = "") then (Some "no webhook", n)
  else (None, Datatypes.S n).

Definition gitlab_needs_project (g : GitlabSender) (_ : Repository) (n : nat)
  : option error * nat :=
  if (ProjectID g <=? 0) then (Some "no project", n)
  else (None, Datatypes.S n).

(** Sample upstream snapshots: every repository is at the given tag. *)
Definition at_tag (tag : string) : string -> string -> Checker.PollResult :=
  fun owner name =>
    Checker.Found ("https://github.com/" ++ owner ++ "/" ++ name)%string (release_of tag).

(** ** [main]: start-up and the dispatch loop *)
Section Dispatcher.

(** [Release.IsNonstable], the stability classifier, is declared outside
    [main.go]; the loop only asks it for a boolean. *)
Variable IsNonstable : Release -> bool.

(** The world the sinks talk to, and the two [Send] methods: each call may
    change the world and returns an error or [nil]. *)
Variable World : Type.
Variable slack_Send : SlackSender -> Repository -> World -> option error * World.
Variable gitlab_Send : GitlabSender -> Repository -> World -> option error * World.

(** [strings.Map(unicode.ToLower, s)], which [strings.ToLower] falls back to
    for a string that is not pure ASCII. *)
Variable unicode_ToLower : string -> string.

Definition ToLower (s : string) : string :=
  if isASCII s then lowerBytes s else unicode_ToLower s.

(** One iteration of the loop: it appends to the trace, changes the world
    and either runs to its end ([Some]) or leaves through [continue]
    ([None]). *)
Definition Iter (A : Type) : Type := World -> list Action * World * option A.

Definition ret {A} (a : A) : Iter A := fun w => ([], w, Some a).

Definition bind {A B} (m : Iter A) (f : A -> Iter B) : Iter B :=
  fun w =>
    match m w with
    | (t1, w1, Some a) =>
        let '(t2, w2, r) := f a w1 in (t1 ++ t2, w2, r)
    | (t1, w1, None) => (t1, w1, None)
    end.

Definition continue {A} : Iter A := fun w => ([], w, None).

Definition log (r : LogRecord) : Iter unit := fun w => ([Log r], w, Some tt).

Definition call_slack (slack : SlackSender) (repository : Repository)
  : Iter (option error) :=
  fun w => let '(err, w') := slack_Send slack repository w in
           ([Send Slack repository], w', Some err).

Definition call_gitlab (gitlab : GitlabSender) (repository : Repository)
  : Iter (option error) :=
  fun w => let '(err, w') := gitlab_Send gitlab repository w in
           ([Send Gitlab repository], w', Some err).

Declare Scope iter_scope.
Delimit Scope iter_scope with iter.
Notation "x <- c1 ;; c2" := (bind c1 (fun x => c2))
  (at level 100, c1 at next level, c2 at level 200, right associativity)
  : iter_scope.
Notation "c1 ;; c2" := (bind c1 (fun _ => c2))
  (at level 100, c2 at level 200, right associativity) : iter_scope.
Local Open Scope iter_scope.

(** The body of [for repository := range releases] (lines 90 to 111). *)
Definition body (c : Config) (slack : SlackSender) (gitlab : GitlabSender)
  (repository : Repository) : Iter unit :=
  (if IgnoreNonstable c && IsNonstable (Repository_Release repository)
   then log (not_notifying repository) ;; continue
   else ret tt) ;;
  (if slack_configured c
   then err <- call_slack slack repository ;;
        match err with
        | Some e => log (slack_failed e) ;; continue
        | None => ret tt
        end
   else ret tt) ;;
  (if gitlab_configured c
   then err <- call_gitlab gitlab repository ;;
        match err with
        | Some e => log (gitlab_failed e) ;; continue
        | None => ret tt
        end
   else ret tt).

(** [range] over the values received from the channel: every value gets one
    iteration, whichever way the previous one ended. *)
Fixpoint range (f : Repository -> Iter unit) (received : list Repository)
  (w : World) : list Action * World :=
  match received with
  | [] => ([], w)
  | repository :: rest =>
      let '(t1, w1, _) := f repository w in
      let '(t2, w2) := range f rest w1 in
      (t1 ++ t2, w2)
  end.

Record Run := mkRun {
  trace : list Action;
  world : World;
  outcome : Outcome;
  filter_level : Allowed
}.

Definition slack_of (c : Config) : SlackSender := {| Hook := SlackHook c |}.

Definition gitlab_of (c : Config) (lg : Allowed) : GitlabSender :=
  {| Hostname := GitlabHostname c; APIToken := GitlabAPIToken c;
     ProjectID := GitlabProjectID c; Labels := GitlabLabels c; logger := lg |}.

(** The dispatch loop alone, for the senders [main] builds. *)
Definition dispatch (c : Config) (received : list Repository) (w : World)
  : list Action * World :=
  range (body c (slack_of c) (gitlab_of c (NewFilter (ToLower (LogLevel c)))))
        received w.

(** [main], from the configuration that [arg.MustParse] has filled in. The
    goroutine running [checker.Run] is seen through what it puts on the
    channel. *)
Definition main (c : Config) (releases : Channel) (w : World) : Run :=
  let lg := NewFilter (ToLower (LogLevel c)) in
  if (length (Repositories c) =? 0)%nat then
    {| trace := [Log no_repositories]; world := w;
       outcome := Exited 1; filter_level := lg |}
  else
    let '(t, w') := dispatch c (sent releases) w in
    {| trace := Log waiting :: t; world := w';
       outcome := if closed releases then Exited 0 else Receiving;
       filter_level := lg |}.

(** ** Properties of the dispatch loop *)

Implicit Types (c : Config) (r repository : Repository) (w : World).

(** The stability filter of line 90, as a predicate on the event. *)
Definition filtered_out c r : bool :=
  IgnoreNonstable c && IsNonstable (Repository_Release r).

(** The received events that pass the filter, in channel order. *)
Definition passing c (received : list Repository) : list Repository :=
  filter (fun r => filtered_out c r = false) received.

(** The events handed to one sink, in the order of the calls. *)
Definition delivered (s : Sink) (t : list Action) : list Repository :=
  flat_map (fun a => match a, s with
                     | Send Slack r, Slack | Send Gitlab r, Gitlab => [r]
                     | _, _ => []
                     end) t.

Lemma sends_app (t1 t2 : list Action) :
  sends (t1 ++ t2) = sends t1 ++ sends t2.
Proof. unfold sends. apply flat_map_app. Qed.

Lemma records_app (t1 t2 : list Action) :
  records (t1 ++ t2) = records t1 ++ records t2.
Proof. unfold records. apply flat_map_app. Qed.

(** An event that the filter catches: one debug record, then [continue]. *)
Lemma body_filtered c sl g r w :
  filtered_out c r = true ->
  body c sl g r w = ([Log (not_notifying r)], w, None).
Proof.
  unfold filtered_out, body, bind, log, continue. intros ->. reflexivity.
Qed.

(** An event that passes the filter: the two guarded calls in sequence. *)
Lemma body_passed c sl g r w :
  filtered_out c r = false ->
  body c sl g r w =
    if slack_configured c then
      match slack_Send sl r w with
      | (Some e, w1) => ([Send Slack r; Log (slack_failed e)], w1, None)
      | (None, w1) =>
          if gitlab_configured c then
            match gitlab_Send g r w1 with
            | (Some e, w2) =>
                ([Send Slack r; Send Gitlab r; Log (gitlab_failed e)], w2, None)
            | (None, w2) => ([Send Slack r; Send Gitlab r], w2, Some tt)
            end
          else ([Send Slack r], w1, Some tt)
      end
    else if gitlab_configured c then
      match gitlab_Send g r w with
      | (Some e, w2) => ([Send Gitlab r; Log (gitlab_failed e)], w2, None)
      | (None, w2) => ([Send Gitlab r], w2, Some tt)
      end
    else ([], w, Some tt).
Proof.
  unfold filtered_out, body, bind, log, continue, ret, call_slack, call_gitlab.
  intros ->. cbn.
  destruct (slack_configured c); cbn.
  - destruct (slack_Send sl r w) as [[e|] w1]; cbn; [reflexivity|].
    destruct (gitlab_configured c); cbn; [|reflexivity].
    destruct (gitlab_Send g r w1) as [[e|] w2]; reflexivity.
  - destruct (gitlab_configured c); cbn; [|reflexivity].
    destruct (gitlab_Send g r w) as [[e|] w2]; reflexivity.
Qed.

(** The loop over a concatenation: the second part starts from the world
    the first part left, whatever happened in it. *)
Lemma range_app f (l1 l2 : list Repository) w :
  range f (l1 ++ l2) w =
    let '(t1, w1) := range f l1 w in
    let '(t2, w2) := range f l2 w1 in
    (t1 ++ t2, w2).
Proof.
  revert w. induction l1 as [|r l1 IH]; intros w; cbn.
  - destruct (range f l2 w); reflexivity.
  - destruct (f r w) as [[t1 w1] fin]. rewrite IH.
    destruct (range f l1 w1) as [ta wa].
    destruct (range f l2 wa) as [tb wb].
    by rewrite app_assoc.
Qed.

Lemma range_cons f r (rest : list Repository) w :
  range f (r :: rest) w =
    ((f r w).1.1 ++ (range f rest (f r w).1.2).1, (range f rest (f r w).1.2).2).
Proof.
  cbn. destruct (f r w) as [[t1 w1] fin]. cbn.
  destruct (range f rest w1); reflexivity.
Qed.

(** Every [Send] of an iteration is for the iteration's own event, which
    passed the filter, through a sink whose guard holds. *)
Lemma sends_body_inv c sl g r w s r' :
  (s, r') ∈ sends (body c sl g r w).1.1 ->
  r' = r /\ filtered_out c r = false /\ s ∈ enabled_sinks c.
Proof.
  destruct (filtered_out c r) eqn:Hf.
  - rewrite body_filtered by done. cbn. intros H. by apply elem_of_nil in H.
  - rewrite body_passed by done. unfold enabled_sinks.
    destruct (slack_configured c), (gitlab_configured c); cbn;
      repeat match goal with
        | |- context [slack_Send ?a ?b ?x] =>
            destruct (slack_Send a b x) as [[?|] ?]; cbn
        | |- context [gitlab_Send ?a ?b ?x] =>
            destruct (gitlab_Send a b x) as [[?|] ?]; cbn
        end;
      intros Hin;
      repeat (apply elem_of_cons in Hin as [Hin|Hin]);
      try (by apply elem_of_nil in Hin);
      injection Hin as -> ->; (split; [done|split; [done|repeat constructor]]).
Qed.

Lemma sends_range_inv f (l : list Repository) w s r' :
  (s, r') ∈ sends (range f l w).1 ->
  exists r w', r ∈ l /\ (s, r') ∈ sends (f r w').1.1.
Proof.
  revert w. induction l as [|r l IH]; intros w.
  - cbn. intros H. by apply elem_of_nil in H.
  - rewrite range_cons. cbn [fst]. rewrite sends_app, elem_of_app.
    intros [H|H].
    + exists r, w. split; [left|done].
    + destruct (IH _ H) as (r0 & w0 & Hin & Hs).
      exists r0, w0. split; [by right|done].
Qed.

(** C1. With the ignore-non-stable option on, an event whose release is
    classified non-stable is dropped: its iteration only writes the debug
    record and leaves the world as it was, and no [Send] of any sink for
    that event occurs in a run of the loop or of [main]. *)
Theorem nonstable_event_is_dropped c r :
  IgnoreNonstable c = true ->
  IsNonstable (Repository_Release r) = true ->
  (forall sl g w, body c sl g r w = ([Log (not_notifying r)], w, None)) /\
  (forall received w s, (s, r) ∉ sends (dispatch c received w).1) /\
  (forall releases w s, (s, r) ∉ sends (trace (main c releases w))).
Proof.
  intros Hi Hn.
  assert (Hf : filtered_out c r = true) by (unfold filtered_out; by rewrite Hi, Hn).
  assert (Hd : forall received w s, (s, r) ∉ sends (dispatch c received w).1).
  { intros received w s Hin. unfold dispatch in Hin.
    apply sends_range_inv in Hin as (r0 & w0 & _ & Hs).
    apply sends_body_inv in Hs as (-> & Hp & _). congruence. }
  split; [|split].
  - intros. by apply body_filtered.
  - exact Hd.
  - intros releases w s. unfold main.
    destruct (length (Repositories c) =? 0)%nat; cbn.
    + set_solver.
    + specialize (Hd (sent releases) w s).
      destruct (dispatch c (sent releases) w) as [t w']. cbn in *. exact Hd.
Qed.
Lemma dispatch_cons c r (rest : list Repository) w :
  let it := body c (slack_of c) (gitlab_of c (NewFilter (ToLower (LogLevel c)))) r w in
  dispatch c (r :: rest) w =
    (it.1.1 ++ (dispatch c rest it.1.2).1, (dispatch c rest it.1.2).2).
Proof. cbn zeta. unfold dispatch. apply range_cons. Qed.

Lemma dispatch_app c (l1 l2 : list Repository) w :
  dispatch c (l1 ++ l2) w =
    ((dispatch c l1 w).1 ++ (dispatch c l2 (dispatch c l1 w).2).1,
     (dispatch c l2 (dispatch c l1 w).2).2).
Proof.
  unfold dispatch. rewrite range_app.
  destruct (range _ l1 w) as [t1 w1]. cbn.
  destruct (range _ l2 w1) as [t2 w2]. reflexivity.
Qed.

(** C2. For an event that passes the stability filter the sinks are called
    in the order chat-webhook, issue-tracker. When the chat webhook is not
    configured or its [Send] returns no error, every enabled sink is called,
    in that order, the issue tracker from the world the chat webhook left.
    When the chat-webhook [Send] returns an error the iteration ends with
    the warning and without a call of the issue-tracker. Either way the
    loop goes on with the next event. *)
Theorem sinks_in_order_first_failure_stops c r (rest : list Repository) w :
  filtered_out c r = false ->
  let sl := slack_of c in
  let g := gitlab_of c (NewFilter (ToLower (LogLevel c))) in
  let it := body c sl g r w in
  (exists n, sends it.1.1 = (fun s => (s, r)) <$> take n (enabled_sinks c)) /\
  (it.2 = Some tt -> sends it.1.1 = (fun s => (s, r)) <$> enabled_sinks c) /\
  (forall w1,
     (if slack_configured c then slack_Send sl r w = (None, w1) else w1 = w) ->
     sends it.1.1 = (fun s => (s, r)) <$> enabled_sinks c /\
     it.1.2 = (if gitlab_configured c then (gitlab_Send g r w1).2 else w1)) /\
  (slack_configured c = true ->
   forall e w1, slack_Send sl r w = (Some e, w1) ->
     it = ([Send Slack r; Log (slack_failed e)], w1, None) /\
     (Gitlab, r) ∉ sends it.1.1) /\
  dispatch c (r :: rest) w =
    (it.1.1 ++ (dispatch c rest it.1.2).1, (dispatch c rest it.1.2).2).
Proof.
  intros Hf sl g it.
  assert (Hit : it = body c sl g r w) by reflexivity.
  rewrite (body_passed _ _ _ _ _ Hf) in Hit.
  split; [|split; [|split; [|split]]].
  - unfold enabled_sinks. rewrite Hit.
    destruct (slack_configured c), (gitlab_configured c);
      repeat match goal with
        | |- context [slack_Send ?a ?b ?x] =>
            destruct (slack_Send a b x) as [[?|] ?]
        | |- context [gitlab_Send ?a ?b ?x] =>
            destruct (gitlab_Send a b x) as [[?|] ?]
        end; cbn;
      first [by exists 0%nat | by exists 1%nat | by exists 2%nat].
  - unfold enabled_sinks. rewrite Hit.
    destruct (slack_configured c), (gitlab_configured c);
      repeat match goal with
        | |- context [slack_Send ?a ?b ?x] =>
            destruct (slack_Send a b x) as [[?|] ?]
        | |- context [gitlab_Send ?a ?b ?x] =>
            destruct (gitlab_Send a b x) as [[?|] ?]
        end; cbn; intros; done.
  - intros w1 Hs. unfold enabled_sinks. rewrite Hit.
    destruct (slack_configured c); [rewrite Hs|subst w1];
      destruct (gitlab_configured c);
      try (destruct (gitlab_Send g r _) as [[?|] ?]); split; reflexivity.
  - intros Hs e w1 He. rewrite Hit, Hs, He. split; [reflexivity|].
    cbn. intros Hin. apply list_elem_of_singleton in Hin. discriminate.
  - apply dispatch_cons.
Qed.

(** C3. Whatever happened to the earlier events, sink failures included,
    the later event gets its own iteration, started from the world they
    left: if it passes the filter, the first enabled sink is called for it,
    and the issue tracker too once the chat webhook accepted it. *)
Theorem earlier_failure_does_not_suppress_later_event
  c (earlier : list Repository) later (rest : list Repository) w :
  filtered_out c later = false ->
  let sl := slack_of c in
  let g := gitlab_of c (NewFilter (ToLower (LogLevel c))) in
  let before := dispatch c earlier w in
  let run := dispatch c (earlier ++ later :: rest) w in
  (exists t, run.1 = before.1 ++ (body c sl g later before.2).1.1 ++ t) /\
  (slack_configured c = true -> (Slack, later) ∈ sends run.1) /\
  (slack_configured c = false -> gitlab_configured c = true ->
   (Gitlab, later) ∈ sends run.1) /\
  (gitlab_configured c = true -> (slack_Send sl later before.2).1 = None ->
   (Gitlab, later) ∈ sends run.1).
Proof.
  intros Hf sl g before run.
  assert (Hrun : run.1 = before.1 ++ (body c sl g later before.2).1.1
                          ++ (dispatch c rest (body c sl g later before.2).1.2).1).
  { unfold run. rewrite dispatch_app. cbn [fst]. f_equal.
    rewrite dispatch_cons. reflexivity. }
  split; [eauto|].
  rewrite Hrun, !sends_app, (body_passed _ _ _ _ _ Hf).
  split; [|split].
  - intros ->. apply elem_of_app; right. apply elem_of_app; left.
    destruct (slack_Send sl later before.2) as [[e|] w1].
    + cbn. left.
    + destruct (gitlab_configured c); [destruct (gitlab_Send g later w1) as [[e|] w2]|];
        cbn; left.
  - intros -> ->. apply elem_of_app; right. apply elem_of_app; left.
    destruct (gitlab_Send g later before.2) as [[e|] w2]; cbn; left.
  - intros -> Hok. apply elem_of_app; right. apply elem_of_app; left.
    destruct (slack_configured c).
    + destruct (slack_Send sl later before.2) as [[e|] w1]; [discriminate|].
      destruct (gitlab_Send g later w1) as [[e|] w2]; cbn; right; left.
    + destruct (gitlab_Send g later before.2) as [[e|] w2]; cbn; left.
Qed.

(** The guards of lines 94 and 103 in the words of the configuration. *)
Lemma gitlab_configured_iff c :
  gitlab_configured c = true <->
  GitlabAPIToken c <> "" /\ GitlabHostname c <> "" /\ 0 < GitlabProjectID c.
Proof.
  unfold gitlab_configured.
  rewrite !andb_true_iff, !negb_true_iff, !bool_decide_eq_false, Z.ltb_lt.
  tauto.
Qed.

Lemma slack_configured_iff c : slack_configured c = true <-> SlackHook c <> "".
Proof.
  unfold slack_configured. by rewrite negb_true_iff, bool_decide_eq_false.
Qed.

(** C4, as amended. For an event that passes the stability filter and that
    the chat webhook did not refuse (it is not configured, or its [Send]
    returned no error), the issue-tracker [Send] is called if and only if
    api-token and hostname are non-empty and project-id is positive; and
    when one of them is missing or project-id is not positive, the issue
    tracker is called for no event at all. *)
Theorem gitlab_called_iff_configured_and_reached c :
  (forall sl g r w,
     filtered_out c r = false ->
     slack_configured c = false \/ (slack_Send sl r w).1 = None ->
     ((Gitlab, r) ∈ sends (body c sl g r w).1.1 <->
      GitlabAPIToken c <> "" /\ GitlabHostname c <> "" /\ 0 < GitlabProjectID c)) /\
  (~ (GitlabAPIToken c <> "" /\ GitlabHostname c <> "" /\ 0 < GitlabProjectID c) ->
   forall received w r, (Gitlab, r) ∉ sends (dispatch c received w).1).
Proof.
  split.
  - intros sl g r w Hf Hs. rewrite <- gitlab_configured_iff. split.
    + intros Hin. apply sends_body_inv in Hin as (_ & _ & Hin).
      unfold enabled_sinks in Hin.
      destruct (gitlab_configured c); [done|].
      destruct (slack_configured c); cbn in Hin.
      * apply list_elem_of_singleton in Hin. discriminate.
      * by apply elem_of_nil in Hin.
    + intros Hg. rewrite (body_passed _ _ _ _ _ Hf), Hg.
      destruct (slack_configured c).
      * destruct Hs as [Hs|Hs]; [discriminate|].
        destruct (slack_Send sl r w) as [[e|] w1]; [discriminate|].
        destruct (gitlab_Send g r w1) as [[e|] w2]; cbn; right; left.
      * destruct (gitlab_Send g r w) as [[e|] w2]; cbn; left.
  - rewrite <- gitlab_configured_iff. intros Hg received w r Hin.
    unfold dispatch in Hin.
    apply sends_range_inv in Hin as (r0 & w0 & _ & Hin).
    apply sends_body_inv in Hin as (_ & _ & Hin).
    unfold enabled_sinks in Hin.
    destruct (gitlab_configured c); [done|].
    destruct (slack_configured c); cbn in Hin.
    + apply list_elem_of_singleton in Hin. discriminate.
    + by apply elem_of_nil in Hin.
Qed.

(** C5, as amended. [main] exits with code 1 exactly when the watch list is
    empty, whatever the forge token is; and as long as the release channel
    is not closed it does not exit with code 0. *)
Theorem exit_1_iff_no_repositories c releases w :
  (Repositories c = [] -> outcome (main c releases w) = Exited 1) /\
  (outcome (main c releases w) = Exited 1 -> Repositories c = []) /\
  (closed releases = false -> outcome (main c releases w) <> Exited 0).
Proof.
  unfold main. destruct (Repositories c) as [|x l] eqn:Hr; cbn.
  - repeat split; congruence.
  - destruct (dispatch c (sent releases) w) as [t w']. cbn.
    repeat split; try congruence.
    + destruct (closed releases); discriminate.
    + intros ->. discriminate.
Qed.

(** C6, as amended. A failing [Send] makes the loop write exactly one
    record, at warning level, whose fields are the fixed message and the
    error; the record of a chat-webhook failure and the record of an
    issue-tracker failure have the same fields and no sink name, they
    differ by the reported call site only. *)
Theorem failure_record_has_message_and_error c sl g r w :
  filtered_out c r = false ->
  (forall e w1,
     slack_configured c = true -> slack_Send sl r w = (Some e, w1) ->
     records (body c sl g r w).1.1 = [slack_failed e]) /\
  (forall e w1 w2,
     gitlab_configured c = true ->
     (if slack_configured c then slack_Send sl r w = (None, w1) else w1 = w) ->
     gitlab_Send g r w1 = (Some e, w2) ->
     records (body c sl g r w).1.1 = [gitlab_failed e]) /\
  (forall e,
     severity (slack_failed e) = LevelWarn /\
     severity (gitlab_failed e) = LevelWarn /\
     keyvals (slack_failed e) =
       [("msg", VString "failed to send release to messenger");
        ("err", VError e)] /\
     keyvals (gitlab_failed e) = keyvals (slack_failed e) /\
     caller (slack_failed e) <> caller (gitlab_failed e)).
Proof.
  intros Hf. rewrite (body_passed _ _ _ _ _ Hf). split; [|split].
  - intros e w1 -> ->. reflexivity.
  - intros e w1 w2 -> Hs Hg. destruct (slack_configured c).
    + rewrite Hs, Hg. reflexivity.
    + subst w1. rewrite Hg. reflexivity.
  - intros e. cbn. repeat split. discriminate.
Qed.

(** [strings.ToLower] on two ASCII strings that differ by letter case. *)
Lemma ToLower_ascii (s : string) : isASCII s = true -> ToLower s = lowerBytes s.
Proof. unfold ToLower. by intros ->. Qed.

(** A letter or its capital is an ASCII byte that lowers to the letter. *)
Lemma lowerByte_variant (a b : ascii) :
  isLower a = true ->
  Ascii.eqb b a || Ascii.eqb b (capital a) = true ->
  lowerByte b = a /\ (Z.of_nat (nat_of_ascii b) <? 128)%Z = true.
Proof.
  intros Ha Hb. apply orb_true_iff in Hb as [Hb|Hb];
    apply Ascii.eqb_eq in Hb; subst b;
    destruct a as [[] [] [] [] [] [] [] []];
    try discriminate Ha; vm_compute; by split.
Qed.

(** Every byte is its own lowering or the capital of its lowering. *)
Lemma variant_lowerByte (b : ascii) :
  Ascii.eqb b (lowerByte b) || Ascii.eqb b (capital (lowerByte b)) = true.
Proof. destruct b as [[] [] [] [] [] [] [] []]; vm_compute; reflexivity. Qed.

Lemma case_variant_lowers (l s : string) :
  all_lower l = true -> case_variant l s = true ->
  isASCII s = true /\ lowerBytes s = l.
Proof.
  revert s. induction l as [|a l IH]; intros [|b s]; cbn; try done.
  intros Hl Hv. apply andb_true_iff in Hl as [Ha Hl].
  apply andb_true_iff in Hv as [Hb Hv].
  destruct (lowerByte_variant a b Ha Hb) as [-> ->].
  destruct (IH s Hl Hv) as [-> ->]. done.
Qed.

Lemma case_variant_of_lowered (s : string) : case_variant (lowerBytes s) s = true.
Proof.
  induction s as [|b s IH]; [reflexivity|]. cbn.
  by rewrite variant_lowerByte, IH.
Qed.

Lemma filter_level_main c releases w :
  filter_level (main c releases w) = NewFilter (ToLower (LogLevel c)).
Proof.
  unfold main. destruct (length (Repositories c) =? 0)%nat; [reflexivity|].
  by destruct (dispatch c (sent releases) w).
Qed.

(** C9. A LOG_LEVEL whose lower-cased form is none of debug, warn, error
    (the empty string included) makes [main] select the info filter, and
    only such a LOG_LEVEL does; the process does not exit on it: with a
    watch list and an open channel [main] stays in its loop. Recognised
    values are matched whatever their letter case: a LOG_LEVEL that spells
    debug, warn or error with any mix of capitals makes [main] select that
    filter, and an ASCII LOG_LEVEL selects it in no other way. *)
Theorem unrecognised_log_level_selects_info c :
  (ToLower (LogLevel c) <> "debug" ->
   ToLower (LogLevel c) <> "warn" ->
   ToLower (LogLevel c) <> "error" ->
   forall releases w,
     filter_level (main c releases w) = AllowInfo /\
     (Repositories c <> [] -> closed releases = false ->
      outcome (main c releases w) = Receiving)) /\
  (forall releases w,
     filter_level (main c releases w) = AllowInfo ->
     ToLower (LogLevel c) <> "debug" /\ ToLower (LogLevel c) <> "warn" /\
     ToLower (LogLevel c) <> "error") /\
  (forall releases w,
     LogLevel c = "" -> filter_level (main c releases w) = AllowInfo) /\
  (forall releases w,
     (case_variant "debug" (LogLevel c) = true ->
      filter_level (main c releases w) = AllowDebug) /\
     (case_variant "warn" (LogLevel c) = true ->
      filter_level (main c releases w) = AllowWarn) /\
     (case_variant "error" (LogLevel c) = true ->
      filter_level (main c releases w) = AllowError)) /\
  (forall releases w,
     isASCII (LogLevel c) = true ->
     (filter_level (main c releases w) = AllowDebug ->
      case_variant "debug" (LogLevel c) = true) /\
     (filter_level (main c releases w) = AllowWarn ->
      case_variant "warn" (LogLevel c) = true) /\
     (filter_level (main c releases w) = AllowError ->
      case_variant "error" (LogLevel c) = true)) /\
  NewFilter (ToLower "") = AllowInfo /\
  (forall s s' : string,
     isASCII s = true -> isASCII s' = true -> lowerBytes s = lowerBytes s' ->
     NewFilter (ToLower s) = NewFilter (ToLower s')) /\
  (forall s : string,
     isASCII s = true ->
     (lowerBytes s = "debug" -> NewFilter (ToLower s) = AllowDebug) /\
     (lowerBytes s = "warn" -> NewFilter (ToLower s) = AllowWarn) /\
     (lowerBytes s = "error" -> NewFilter (ToLower s) = AllowError)).
Proof.
  split; [|split; [|split; [|split; [|split; [|split; [|split]]]]]].
  - intros Hd Hw He releases w.
    assert (Hlg : NewFilter (ToLower (LogLevel c)) = AllowInfo).
    { unfold NewFilter. repeat case_decide; congruence. }
    unfold main. destruct (Repositories c) as [|x l]; cbn.
    + split; [exact Hlg|]. congruence.
    + destruct (dispatch c (sent releases) w) as [t w']. cbn.
      split; [exact Hlg|]. by intros _ ->.
  - intros releases w. rewrite filter_level_main. unfold NewFilter.
    repeat case_decide; try discriminate. done.
  - intros releases w Hl. rewrite filter_level_main, Hl. reflexivity.
  - intros releases w. rewrite filter_level_main.
    repeat split; intros Hv;
      apply case_variant_lowers in Hv as [Ha Hl]; try reflexivity;
      by rewrite (ToLower_ascii _ Ha), Hl.
  - intros releases w Ha. rewrite filter_level_main, (ToLower_ascii _ Ha).
    pose proof (case_variant_of_lowered (LogLevel c)) as Hv.
    unfold NewFilter.
    repeat split; intros Hlg; repeat case_decide; try discriminate;
      congruence.
  - reflexivity.
  - intros s s' Hs Hs' Heq. by rewrite !ToLower_ascii, Heq.
  - intros s Hs. rewrite (ToLower_ascii _ Hs).
    repeat split; intros ->; reflexivity.
Qed.

(** C10, as amended. With no chat webhook and an issue tracker that is not
    fully configured, the loop still takes every event in turn and discards
    it: no [Send], no record above debug level, the world untouched. It is
    silent but for the debug record that the stability filter writes for
    each event it drops: under a filter that lets debug through these
    records, one per filtered event in channel order, are what the loop
    writes; under any other LOG_LEVEL, and also with the filter option off,
    it writes nothing. *)
Theorem no_sink_enabled_events_discarded c (received : list Repository) w :
  SlackHook c = "" ->
  ~ (GitlabAPIToken c <> "" /\ GitlabHostname c <> "" /\ 0 < GitlabProjectID c) ->
  dispatch c received w =
    (flat_map (fun r => if filtered_out c r then [Log (not_notifying r)] else [])
       received, w) /\
  sends (dispatch c received w).1 = [] /\
  (forall lr, lr ∈ records (dispatch c received w).1 -> severity lr = LevelDebug) /\
  (forall lg,
     written lg (dispatch c received w).1 =
       if allows lg LevelDebug
       then not_notifying <$> filter (fun r => filtered_out c r = true) received
       else []) /\
  (ToLower (LogLevel c) <> "debug" ->
   written (NewFilter (ToLower (LogLevel c))) (dispatch c received w).1 = []) /\
  written AllowInfo (dispatch c received w).1 = [] /\
  (IgnoreNonstable c = false -> (dispatch c received w).1 = []).
Proof.
  intros Hs Hg.
  assert (Hs' : slack_configured c = false).
  { destruct (slack_configured c) eqn:E; [|done].
    apply slack_configured_iff in E. done. }
  assert (Hg' : gitlab_configured c = false).
  { destruct (gitlab_configured c) eqn:E; [|done].
    apply gitlab_configured_iff in E. done. }
  assert (Hd : dispatch c received w =
    (flat_map (fun r => if filtered_out c r then [Log (not_notifying r)] else [])
       received, w)).
  { induction received as [|r rest IH]; [reflexivity|].
    rewrite dispatch_cons. cbn zeta.
    destruct (filtered_out c r) eqn:Hf.
    - rewrite (body_filtered _ _ _ _ _ Hf). cbn [fst snd]. rewrite IH.
      cbn. by rewrite Hf.
    - rewrite (body_passed _ _ _ _ _ Hf), Hs', Hg'. cbn [fst snd]. rewrite IH.
      cbn. by rewrite Hf. }
  rewrite Hd. cbn [fst]. clear Hd.
  assert (Hw : forall lg,
    written lg (flat_map (fun r => if filtered_out c r
                                   then [Log (not_notifying r)] else []) received)
    = if allows lg LevelDebug
      then not_notifying <$> filter (fun r => filtered_out c r = true) received
      else []).
  { intros lg. unfold written.
    induction received as [|r rest IH]; [by destruct (allows lg LevelDebug)|].
    cbn [flat_map]. rewrite records_app, filter_app, IH.
    destruct (filtered_out c r) eqn:Hf.
    - rewrite (filter_cons_True (fun r => filtered_out c r = true)) by done.
      cbn [records flat_map app].
      destruct (allows lg LevelDebug) eqn:Ha.
      + by rewrite filter_cons_True.
      + rewrite filter_cons_False; [reflexivity|].
        cbn [severity not_notifying]. rewrite Ha. discriminate.
    - rewrite (filter_cons_False (fun r => filtered_out c r = true))
        by (rewrite Hf; discriminate).
      reflexivity. }
  split; [reflexivity|].
  split; [|split; [|split; [|split; [|split]]]].
  - clear Hw. induction received as [|r rest IH]; [reflexivity|].
    cbn. rewrite sends_app, IH. by destruct (filtered_out c r).
  - clear Hw. induction received as [|r rest IH]; intros lr.
    + cbn. intros H. by apply elem_of_nil in H.
    + cbn. rewrite records_app, elem_of_app. intros [H|H]; [|by apply IH].
      destruct (filtered_out c r); cbn in H.
      * apply list_elem_of_singleton in H. by subst lr.
      * by apply elem_of_nil in H.
  - exact Hw.
  - intros Hl. rewrite Hw. unfold NewFilter.
    repeat case_decide; try congruence; reflexivity.
  - by rewrite Hw.
  - clear Hw. intros Hi. induction received as [|r rest IH]; [reflexivity|].
    cbn. rewrite IH. unfold filtered_out. by rewrite Hi.
Qed.

(** ** Further properties of [main] *)

Lemma delivered_app s (t1 t2 : list Action) :
  delivered s (t1 ++ t2) = delivered s t1 ++ delivered s t2.
Proof. unfold delivered. apply flat_map_app. Qed.

Lemma records_range_inv f (l : list Repository) w lr :
  lr ∈ records (range f l w).1 ->
  exists r w', r ∈ l /\ lr ∈ records (f r w').1.1.
Proof.
  revert w. induction l as [|r l IH]; intros w.
  - cbn. intros H. by apply elem_of_nil in H.
  - rewrite range_cons. cbn [fst]. rewrite records_app, elem_of_app.
    intros [H|H].
    + exists r, w. split; [left|done].
    + destruct (IH _ H) as (r0 & w0 & Hin & Hs).
      exists r0, w0. split; [by right|done].
Qed.

(** The records one iteration can write. *)
Lemma records_body_inv c sl g r w lr :
  lr ∈ records (body c sl g r w).1.1 ->
  (filtered_out c r = true /\ lr = not_notifying r) \/
  (exists e, slack_configured c = true /\ lr = slack_failed e) \/
  (exists e, gitlab_configured c = true /\ lr = gitlab_failed e).
Proof.
  destruct (filtered_out c r) eqn:Hf.
  - rewrite body_filtered by done. cbn. intros H.
    apply list_elem_of_singleton in H. by left.
  - rewrite body_passed by done.
    destruct (slack_configured c), (gitlab_configured c);
      repeat match goal with
        | |- context [slack_Send ?a ?b ?x] =>
            destruct (slack_Send a b x) as [[?|] ?]
        | |- context [gitlab_Send ?a ?b ?x] =>
            destruct (gitlab_Send a b x) as [[?|] ?]
        end; cbn; intros Hin;
      try (by apply elem_of_nil in Hin);
      apply list_elem_of_singleton in Hin; right; eauto.
Qed.

(** What one iteration hands to a sink: nothing, or its own event if that
    event passes the filter. *)
Lemma delivered_body c sl g r w s :
  delivered s (body c sl g r w).1.1 = [] \/
  (delivered s (body c sl g r w).1.1 = [r] /\ filtered_out c r = false).
Proof.
  destruct (filtered_out c r) eqn:Hf.
  - rewrite body_filtered by done. by left.
  - rewrite body_passed by done.
    destruct s, (slack_configured c), (gitlab_configured c);
      repeat match goal with
        | |- context [slack_Send ?a ?b ?x] =>
            destruct (slack_Send a b x) as [[?|] ?]
        | |- context [gitlab_Send ?a ?b ?x] =>
            destruct (gitlab_Send a b x) as [[?|] ?]
        end; cbn; auto.
Qed.

Lemma passing_cons c r (rest : list Repository) :
  passing c (r :: rest) =
    if filtered_out c r then passing c rest else r :: passing c rest.
Proof.
  unfold passing. rewrite filter_cons.
  destruct (filtered_out c r); case_decide; congruence.
Qed.

(** The sink that comes first among the enabled ones is handed every
    passing event. *)
Lemma delivered_first_sink c (received : list Repository) w s :
  head (enabled_sinks c) = Some s ->
  delivered s (dispatch c received w).1 = passing c received.
Proof.
  intros Hh. revert w. induction received as [|r rest IH]; intros w; [reflexivity|].
  rewrite dispatch_cons. cbn zeta. cbn [fst].
  rewrite delivered_app, IH, passing_cons.
  destruct (filtered_out c r) eqn:Hf.
  - by rewrite body_filtered.
  - rewrite body_passed by done. unfold enabled_sinks in Hh.
    destruct (slack_configured c), (gitlab_configured c);
      cbn in Hh; simplify_eq;
      repeat match goal with
        | |- context [slack_Send ?a ?b ?x] =>
            destruct (slack_Send a b x) as [[?|] ?]
        | |- context [gitlab_Send ?a ?b ?x] =>
            destruct (gitlab_Send a b x) as [[?|] ?]
        end; reflexivity.
Qed.

Lemma delivered_sublist c (received : list Repository) w s :
  delivered s (dispatch c received w).1 `sublist_of` passing c received.
Proof.
  revert w. induction received as [|r rest IH]; intros w; [constructor|].
  rewrite dispatch_cons. cbn zeta. cbn [fst].
  rewrite delivered_app, passing_cons.
  destruct (delivered_body c (slack_of c)
              (gitlab_of c (NewFilter (ToLower (LogLevel c)))) r w s)
    as [->|[-> ->]]; cbn [app].
  - destruct (filtered_out c r); [apply IH|]. apply sublist_cons, IH.
  - apply sublist_skip, IH.
Qed.



Lemma written_nil f (t : list Action) :
  (forall lr, lr ∈ records t -> allows f (severity lr) = false) ->
  written f t = [].
Proof.
  unfold written. induction (records t) as [|lr l IH]; intros H; [reflexivity|].
  rewrite filter_cons_False.
  - apply IH. intros lr' Hin. apply H. by right.
  - rewrite (H lr) by left. discriminate.
Qed.

(** X1. [main] never calls a sink out of turn: every [Send] of a run is for
    an event that was received on the channel and passed the stability
    filter, through a sink whose guard holds, and none is made when the
    watch list is empty. *)
Theorem sends_only_for_received_passing_events c releases w s r :
  (s, r) ∈ sends (trace (main c releases w)) ->
  r ∈ sent releases /\ filtered_out c r = false /\
  s ∈ enabled_sinks c /\ Repositories c <> [].
Proof.
  unfold main. destruct (Repositories c) as [|x l] eqn:Hr; cbn.
  - intros H. by apply elem_of_nil in H.
  - destruct (dispatch c (sent releases) w) as [t w'] eqn:Hd. cbn. intros Hin.
    assert (Hin' : (s, r) ∈ sends (dispatch c (sent releases) w).1)
      by (by rewrite Hd).
    unfold dispatch in Hin'.
    apply sends_range_inv in Hin' as (r0 & w0 & Hr0 & Hs).
    by apply sends_body_inv in Hs as (-> & Hf & Hen).
Qed.

(** X2. When no [Send] of a configured sink fails, the loop hands every
    passing event to every enabled sink, chat webhook before issue tracker,
    event after event in channel order, and writes nothing but the debug
    record of each filtered event. *)
Theorem healthy_sinks_deliver_to_all c (received : list Repository) w :
  (slack_configured c = true ->
   forall r w', (slack_Send (slack_of c) r w').1 = None) ->
  (gitlab_configured c = true ->
   forall r w',
     (gitlab_Send (gitlab_of c (NewFilter (ToLower (LogLevel c)))) r w').1 = None) ->
  (dispatch c received w).1 =
    flat_map (fun r => if filtered_out c r then [Log (not_notifying r)]
                       else (fun s => Send s r) <$> enabled_sinks c) received.
Proof.
  intros Hs Hg. revert w.
  induction received as [|r rest IH]; intros w; [reflexivity|].
  rewrite dispatch_cons. cbn zeta. cbn [fst flat_map]. rewrite IH. f_equal.
  destruct (filtered_out c r) eqn:Hf.
  - by rewrite body_filtered.
  - rewrite body_passed by done. unfold enabled_sinks.
    destruct (slack_configured c), (gitlab_configured c);
      repeat match goal with
        | |- context [slack_Send ?a ?b ?x] =>
            let E := fresh "E" in
            destruct (slack_Send a b x) as [[?|] ?] eqn:E;
            [pose proof (Hs eq_refl b x) as HH; rewrite E in HH; discriminate|]
        | |- context [gitlab_Send ?a ?b ?x] =>
            let E := fresh "E" in
            destruct (gitlab_Send a b x) as [[?|] ?] eqn:E;
            [pose proof (Hg eq_refl b x) as HH; rewrite E in HH; discriminate|]
        end; reflexivity.
Qed.

(** X3. Whatever the sinks answer, the first enabled sink (the chat webhook
    if configured, else the issue tracker) is called exactly once for each
    received event that passes the filter, in channel order. *)
Theorem first_enabled_sink_gets_every_passing_event
  c (received : list Repository) w s :
  head (enabled_sinks c) = Some s ->
  delivered s (dispatch c received w).1 = passing c received.
Proof. apply delivered_first_sink. Qed.

(** X4. The events handed to the issue tracker are a subsequence of the
    passing events, and, with the chat webhook configured, of the events
    handed to the chat webhook: the tracker never gets more than the chat. *)
Theorem tracker_gets_subsequence_of_chat c (received : list Repository) w :
  let t := (dispatch c received w).1 in
  delivered Gitlab t `sublist_of` passing c received /\
  (slack_configured c = true ->
   delivered Gitlab t `sublist_of` delivered Slack t /\
   (length (delivered Gitlab t) <= length (delivered Slack t))%nat).
Proof.
  cbn zeta. split; [apply delivered_sublist|].
  intros Hs.
  assert (Hsub : delivered Gitlab (dispatch c received w).1
                   `sublist_of` delivered Slack (dispatch c received w).1).
  { rewrite (delivered_first_sink c received w Slack).
    - apply delivered_sublist.
    - unfold enabled_sinks. by rewrite Hs. }
  split; [exact Hsub|]. by apply sublist_length.
Qed.


(** The records one iteration can write, each with its cause: the filter
    caught the event, or a [Send] of this iteration returned the error. *)
Lemma records_body_caused c sl g r w lr :
  lr ∈ records (body c sl g r w).1.1 ->
  (filtered_out c r = true /\ lr = not_notifying r) \/
  (filtered_out c r = false /\ slack_configured c = true /\
   exists e w1, slack_Send sl r w = (Some e, w1) /\ lr = slack_failed e) \/
  (filtered_out c r = false /\ gitlab_configured c = true /\
   exists e w1 w2,
     (if slack_configured c then slack_Send sl r w = (None, w1) else w1 = w) /\
     gitlab_Send g r w1 = (Some e, w2) /\ lr = gitlab_failed e).
Proof.
  destruct (filtered_out c r) eqn:Hf.
  - rewrite body_filtered by done. cbn. intros H.
    apply list_elem_of_singleton in H. by left.
  - rewrite body_passed by done.
    destruct (slack_configured c).
    + destruct (slack_Send sl r w) as [[e|] w1] eqn:Es.
      * cbn. intros Hin. apply list_elem_of_singleton in Hin.
        right; left. eauto 6.
      * destruct (gitlab_configured c).
        -- destruct (gitlab_Send g r w1) as [[e|] w2] eqn:Eg; cbn; intros Hin.
           ++ apply list_elem_of_singleton in Hin. right; right.
              split; [done|split; [done|]]. exists e, w1, w2. done.
           ++ by apply elem_of_nil in Hin.
        -- cbn. intros Hin. by apply elem_of_nil in Hin.
    + destruct (gitlab_configured c).
      * destruct (gitlab_Send g r w) as [[e|] w2] eqn:Eg; cbn; intros Hin.
        -- apply list_elem_of_singleton in Hin. right; right.
           split; [done|split; [done|]]. exists e, w, w2. done.
        -- by apply elem_of_nil in Hin.
      * cbn. intros Hin. by apply elem_of_nil in Hin.
Qed.

(** A record of the loop comes from the iteration of one received event,
    run from the world that the events before it left. *)
Lemma records_dispatch_split c (received : list Repository) w lr :
  lr ∈ records (dispatch c received w).1 ->
  exists before r after,
    received = before ++ r :: after /\
    lr ∈ records (body c (slack_of c)
                    (gitlab_of c (NewFilter (ToLower (LogLevel c)))) r
                    (dispatch c before w).2).1.1.
Proof.
  revert w. induction received as [|r rest IH]; intros w.
  - cbn. intros H. by apply elem_of_nil in H.
  - rewrite dispatch_cons. cbn zeta. cbn [fst].
    rewrite records_app, elem_of_app. intros [H|H].
    + exists [], r, rest. split; [reflexivity|exact H].
    + destruct (IH _ H) as (before & r0 & after & -> & Hin).
      exists (r :: before), r0, after. split; [reflexivity|].
      rewrite dispatch_cons. exact Hin.
Qed.

(** X6. Once it is past the start-up check, [main] writes four kinds of
    records only: the info record that it waits; the debug record of an
    event that was received and filtered out; the warning of a [Send] of the
    configured chat webhook that returned this very error for a received,
    passing event, in the world the earlier events left; and the same for
    the configured issue tracker, called after the chat webhook accepted
    the event. It logs nothing at error level. *)
Theorem running_main_writes_four_kinds_of_records c releases w lr :
  Repositories c <> [] ->
  lr ∈ records (trace (main c releases w)) ->
  lr = waiting \/
  exists before r after,
    sent releases = before ++ r :: after /\
    let w0 := (dispatch c before w).2 in
    let sl := slack_of c in
    let g := gitlab_of c (NewFilter (ToLower (LogLevel c))) in
    (filtered_out c r = true /\ lr = not_notifying r) \/
    (filtered_out c r = false /\ slack_configured c = true /\
     exists e w1, slack_Send sl r w0 = (Some e, w1) /\ lr = slack_failed e) \/
    (filtered_out c r = false /\ gitlab_configured c = true /\
     exists e w1 w2,
       (if slack_configured c then slack_Send sl r w0 = (None, w1) else w1 = w0) /\
       gitlab_Send g r w1 = (Some e, w2) /\ lr = gitlab_failed e).
Proof.
  intros Hr. unfold main. destruct (Repositories c) as [|x l]; [done|]. cbn.
  destruct (dispatch c (sent releases) w) as [t w'] eqn:Hd. cbn.
  intros Hin. apply elem_of_cons in Hin as [->|Hin]; [by left|]. right.
  assert (Hin' : lr ∈ records (dispatch c (sent releases) w).1)
    by (by rewrite Hd).
  apply records_dispatch_split in Hin' as (before & r0 & after & Hs & Hb).
  exists before, r0, after. split; [exact Hs|].
  cbn zeta. by apply records_body_caused.
Qed.

(** X7. With LOG_LEVEL set to error (in any letter case) a running [main]
    writes nothing at all: the waiting record, the filter's debug records
    and the warnings of failed deliveries are all below the filter. *)
Theorem error_level_silences_running_main c releases w :
  ToLower (LogLevel c) = "error" ->
  Repositories c <> [] ->
  written (filter_level (main c releases w)) (trace (main c releases w)) = [].
Proof.
  intros Hl Hr.
  assert (Hlg : filter_level (main c releases w) = AllowError).
  { unfold main. rewrite Hl.
    destruct (length (Repositories c) =? 0)%nat; [reflexivity|].
    by destruct (dispatch c (sent releases) w). }
  rewrite Hlg. apply written_nil. intros lr Hin.
  unfold main in Hin. destruct (Repositories c) as [|x l]; [done|]. cbn in Hin.
  destruct (dispatch c (sent releases) w) as [t w'] eqn:Hd. cbn in Hin.
  apply elem_of_cons in Hin as [->|Hin]; [reflexivity|].
  assert (Hin' : lr ∈ records (dispatch c (sent releases) w).1)
    by (by rewrite Hd).
  unfold dispatch in Hin'.
  apply records_range_inv in Hin' as (r0 & w0 & Hr0 & Hs).
  apply records_body_inv in Hs as [[Hf ->]|[[e [_ ->]]|[e [_ ->]]]]; reflexivity.
Qed.

(** X8. With an empty watch list [main] takes nothing from the channel and
    leaves the world alone; its only record, the error, passes every filter
    that LOG_LEVEL can select. *)
Theorem empty_watch_list_error_is_always_written c releases w :
  Repositories c = [] ->
  trace (main c releases w) = [Log no_repositories] /\
  world (main c releases w) = w /\
  written (filter_level (main c releases w)) (trace (main c releases w))
    = [no_repositories].
Proof.
  intros Hr. unfold main. rewrite Hr.
  destruct (NewFilter (ToLower (LogLevel c))); repeat split.
Qed.

(** X9. What [main] has done after more values arrived extends what it had
    done before: the trace for a longer channel history is the trace for
    the shorter one followed by the dispatch of the new values, started
    from the world the shorter run left. *)
Theorem trace_grows_with_channel c (l1 l2 : list Repository) b1 b2 w :
  Repositories c <> [] ->
  let short := main c {| sent := l1; closed := b1 |} w in
  let long := main c {| sent := l1 ++ l2; closed := b2 |} w in
  trace long = trace short ++ (dispatch c l2 (world short)).1 /\
  world long = (dispatch c l2 (world short)).2.
Proof.
  intros Hr. unfold main. destruct (Repositories c) as [|x l]; [done|].
  cbn [length Nat.eqb sent closed]. rewrite dispatch_app.
  destruct (dispatch c l1 w) as [t1 w1]. cbn [fst snd trace world].
  by destruct (dispatch c l2 w1) as [t2 w2].
Qed.

End Dispatcher.

(** ** Properties of the Checker's state machine *)
Section CheckerProperties.

Import Checker.

Implicit Types (u : Upstream) (seen : SeenTable) (e : string * string)
  (entries : list (string * string)) (k : string * string).

Lemma emitted_app (o1 o2 : list Output) :
  emitted (o1 ++ o2) = emitted o1 ++ emitted o2.
Proof. unfold emitted. apply flat_map_app. Qed.

Lemma for_repository_app k (l1 l2 : list Repository) :
  for_repository k (l1 ++ l2) = for_repository k l1 ++ for_repository k l2.
Proof. unfold for_repository. apply filter_app. Qed.

(** Ingest keeps one entry per coordinate. *)
Lemma dedup_keys (acc l : list (string * string)) :
  NoDup (key <$> dedup acc l) /\ (forall e, e ∈ dedup acc l -> key e ∉ acc).
Proof.
  revert acc. induction l as [|e l IH]; intros acc; cbn.
  - split; [constructor|]. intros e H. by apply elem_of_nil in H.
  - case_bool_decide as Hin; [apply IH|].
    destruct (IH (key e :: acc)) as [Hnd Hout]. split.
    + cbn. apply NoDup_cons. split; [|exact Hnd].
      intros Hk. apply list_elem_of_fmap in Hk as (e' & Heq & He').
      apply Hout in He'. apply not_elem_of_cons in He' as [Hne _]. congruence.
    + intros e' He'. apply elem_of_cons in He' as [->|He']; [exact Hin|].
      apply Hout in He'. by apply not_elem_of_cons in He' as [_ ?].
Qed.

Lemma ingest_NoDup (watchSpec : list string) : NoDup (key <$> ingest watchSpec).
Proof. apply dedup_keys. Qed.

(** One poll, seen from its own coordinate: the table of the spec. *)
Lemma poll_observe u seen e :
  emitted (poll u seen e).1 = (observe e (seen !! key e) (u e.1 e.2)).1 /\
  (poll u seen e).2 !! key e = (observe e (seen !! key e) (u e.1 e.2)).2.
Proof.
  unfold poll, observe. destruct (u e.1 e.2) as [url R| |[|]]; cbn; try done.
  destruct (seen !! key e) as [T|] eqn:Hs; cbn.
  - case_bool_decide; cbn; [done|]. by rewrite lookup_insert_eq.
  - by rewrite lookup_insert_eq.
Qed.

(** One poll, seen from another coordinate: nothing emitted for it, its
    entry untouched. *)
Lemma poll_other u seen e k :
  key e <> k ->
  for_repository k (emitted (poll u seen e).1) = [] /\
  (poll u seen e).2 !! k = seen !! k.
Proof.
  intros Hne. unfold poll.
  destruct (u e.1 e.2) as [url R| |[|]]; cbn [fst snd]; try done.
  destruct (seen !! key e) as [T|]; cbn [fst snd].
  - case_bool_decide; cbn [fst snd]; [done|]. split.
    + unfold for_repository, emitted. cbn [flat_map app].
      rewrite filter_cons_False; [done|]. cbn. by destruct e.
    + by rewrite lookup_insert_ne.
  - split; [done|]. by rewrite lookup_insert_ne.
Qed.

Lemma observe_own e st p :
  for_repository (key e) (observe e st p).1 = (observe e st p).1.
Proof.
  unfold observe. destruct p as [url R| |]; try done.
  destruct st as [T|]; [|done]. case_bool_decide; [done|].
  unfold for_repository. cbn [fst]. rewrite filter_cons_True; [done|].
  cbn. by destruct e.
Qed.

Lemma tick_cons u e entries seen :
  tick u (e :: entries) seen =
    ((poll u seen e).1 ++ (tick u entries (poll u seen e).2).1,
     (tick u entries (poll u seen e).2).2).
Proof.
  cbn. destruct (poll u seen e) as [o1 s1]. cbn.
  by destruct (tick u entries s1).
Qed.

Lemma tick_other u entries seen k :
  k ∉ key <$> entries ->
  for_repository k (emitted (tick u entries seen).1) = [] /\
  (tick u entries seen).2 !! k = seen !! k.
Proof.
  revert seen. induction entries as [|e entries IH]; intros seen Hk; [done|].
  cbn in Hk. apply not_elem_of_cons in Hk as [Hne Hk].
  rewrite tick_cons. cbn [fst snd].
  destruct (poll_other u seen e k) as [H1 H2]; [done|].
  destruct (IH (poll u seen e).2 Hk) as [H3 H4].
  by rewrite emitted_app, for_repository_app, H1, H3, H4, H2.
Qed.

(** One tick, seen from a coordinate of the watch list. *)
Lemma tick_observe u entries seen e :
  NoDup (key <$> entries) -> e ∈ entries ->
  for_repository (key e) (emitted (tick u entries seen).1)
    = (observe e (seen !! key e) (u e.1 e.2)).1 /\
  (tick u entries seen).2 !! key e = (observe e (seen !! key e) (u e.1 e.2)).2.
Proof.
  revert seen. induction entries as [|e0 entries IH]; intros seen Hnd Hin.
  - by apply elem_of_nil in Hin.
  - cbn in Hnd. apply NoDup_cons in Hnd as [Hfresh Hnd].
    rewrite tick_cons. cbn [fst snd].
    rewrite emitted_app, for_repository_app.
    apply elem_of_cons in Hin as [->|Hin].
    + destruct (poll_observe u seen e0) as [H1 H2].
      destruct (tick_other u entries (poll u seen e0).2 (key e0) Hfresh) as [H3 H4].
      rewrite H3, H4, H2, H1, observe_own, app_nil_r. done.
    + assert (Hne : key e0 <> key e).
      { intros Heq. apply Hfresh. rewrite Heq. by apply list_elem_of_fmap_2. }
      destruct (poll_other u seen e0 (key e) Hne) as [H1 H2].
      destruct (IH (poll u seen e0).2 Hnd Hin) as [H3 H4].
      by rewrite H1, H3, H4, H2.
Qed.

Lemma ticks_cons u (us : list Upstream) entries seen :
  ticks (u :: us) entries seen =
    ((tick u entries seen).1 ++ (ticks us entries (tick u entries seen).2).1,
     (ticks us entries (tick u entries seen).2).2).
Proof.
  cbn. destruct (tick u entries seen) as [o1 s1]. cbn.
  by destruct (ticks us entries s1).
Qed.


(** A run publishes what its ticks emit and keeps their table. *)
Lemma Run_ticks (watchSpec : list string) (us : list Upstream) :
  emitted (Run watchSpec us).1 = emitted (ticks us (ingest watchSpec) ∅).1 /\
  (Run watchSpec us).2 = (ticks us (ingest watchSpec) ∅).2.
Proof.
  unfold Run. destruct (ticks us (ingest watchSpec) ∅) as [o seen]. cbn [fst snd].
  split; [|reflexivity]. rewrite emitted_app.
  replace (emitted (rejected watchSpec)) with (@nil Repository); [reflexivity|].
  unfold rejected. induction watchSpec as [|entry l IH]; [reflexivity|].
  cbn [flat_map]. rewrite emitted_app, <- IH.
  by destruct (parse_entry entry).
Qed.

(** A tick over coordinates the table has never seen emits nothing. *)
Lemma tick_primes u entries seen :
  NoDup (key <$> entries) ->
  (forall e, e ∈ entries -> seen !! key e = None) ->
  emitted (tick u entries seen).1 = [].
Proof.
  revert seen. induction entries as [|e entries IH]; intros seen Hnd Habs.
  - reflexivity.
  - cbn in Hnd. apply NoDup_cons in Hnd as [Hfresh Hnd].
    rewrite tick_cons. cbn [fst]. rewrite emitted_app.
    destruct (poll_observe u seen e) as [-> _].
    rewrite (Habs e) by left.
    rewrite IH; [by destruct (u e.1 e.2)|done|].
    intros e' He'.
    assert (Hne : key e <> key e').
    { intros Heq. apply Hfresh. rewrite Heq. by apply list_elem_of_fmap_2. }
    destruct (poll_other u seen e (key e') Hne) as [_ ->].
    apply Habs. by right.
Qed.

(** C7. Run from process start through its first tick, the Checker emits no
    event, whatever the watch list and the forge's answers; for every watched
    repository that has a latest release, the SeenTable then holds the tag of
    that release. *)
Theorem first_tick_only_records_baseline (watchSpec : list string) u :
  emitted (Run watchSpec [u]).1 = [] /\
  (forall e url R,
     e ∈ ingest watchSpec -> u e.1 e.2 = Found url R ->
     (Run watchSpec [u]).2 !! key e = Some (Release_Tag R)).
Proof.
  destruct (Run_ticks watchSpec [u]) as [-> ->].
  rewrite ticks_cons. cbn [ticks fst snd]. rewrite app_nil_r.
  split.
  - apply tick_primes; [apply ingest_NoDup|]. intros e _. apply lookup_empty.
  - intros e url R Hin Hu.
    destruct (tick_observe u (ingest watchSpec) ∅ e (ingest_NoDup _) Hin) as [_ ->].
    by rewrite Hu, lookup_empty.
Qed.





End CheckerProperties.

(** ** The properties at sample inputs *)

Lemma nonstable_event_is_dropped_at_rc :
  IgnoreNonstable both_sinks = true /\
  has_rc (release_of "v1.1.0-rc.1") = true /\
  forall s, (s, hello_world "v1.1.0-rc.1")
            ∉ sends (dispatch has_rc nat delivers delivers id both_sinks
                       [hello_world "v1.0.0"; hello_world "v1.1.0-rc.1"] 0%nat).1.
Proof.
  split; [reflexivity|split; [reflexivity|]]. intros s.
  apply (nonstable_event_is_dropped has_rc nat delivers delivers id both_sinks
           (hello_world "v1.1.0-rc.1")); reflexivity.
Defined.

Lemma first_failure_stops_at_500 :
  filtered_out has_rc both_sinks (hello_world "v1.1.0") = false /\
  body has_rc nat answers_500 delivers both_sinks (slack_of both_sinks)
    (gitlab_of both_sinks AllowInfo) (hello_world "v1.1.0") 0%nat
  = ([Send Slack (hello_world "v1.1.0");
      Log (slack_failed "unexpected status code 500")], 0%nat, None) /\
  sends (body has_rc nat delivers delivers both_sinks (slack_of both_sinks)
           (gitlab_of both_sinks AllowInfo) (hello_world "v1.1.0") 0%nat).1.1
  = [(Slack, hello_world "v1.1.0"); (Gitlab, hello_world "v1.1.0")].
Proof.
  split; [reflexivity|split].
  - destruct (sinks_in_order_first_failure_stops has_rc nat answers_500 delivers
                id both_sinks (hello_world "v1.1.0") [prometheus "v2.0.0"] 0%nat
                eq_refl) as (_ & _ & _ & H & _).
    exact (proj1 (H eq_refl _ _ eq_refl)).
  - destruct (sinks_in_order_first_failure_stops has_rc nat delivers delivers
                id both_sinks (hello_world "v1.1.0") [prometheus "v2.0.0"] 0%nat
                eq_refl) as (_ & _ & H & _).
    exact (proj1 (H 1%nat eq_refl)).
Defined.

Lemma later_event_delivered_after_failure :
  filtered_out has_rc both_sinks (prometheus "v2.0.0") = false /\
  (Slack, prometheus "v2.0.0")
    ∈ sends (dispatch has_rc nat fails_for_octocat delivers id both_sinks
               [hello_world "v1.1.0"; prometheus "v2.0.0"] 0%nat).1 /\
  (Gitlab, prometheus "v2.0.0")
    ∈ sends (dispatch has_rc nat fails_for_octocat delivers id both_sinks
               [hello_world "v1.1.0"; prometheus "v2.0.0"] 0%nat).1.
Proof.
  split; [reflexivity|].
  destruct (earlier_failure_does_not_suppress_later_event has_rc nat
              fails_for_octocat delivers id both_sinks
              [hello_world "v1.1.0"] (prometheus "v2.0.0") [] 0%nat eq_refl)
    as (_ & Hs & _ & Hg).
  split; [exact (Hs eq_refl)|exact (Hg eq_refl eq_refl)].
Defined.

(** C4 as stated fails: with the issue tracker fully configured, an event
    that the chat webhook refuses never reaches the issue tracker. *)
Lemma gitlab_not_called_after_slack_failure :
  ~ ((Gitlab, hello_world "v1.1.0")
       ∈ sends (dispatch has_rc nat answers_500 delivers id both_sinks
                  [hello_world "v1.1.0"] 0%nat).1
     <-> GitlabAPIToken both_sinks <> "" /\ GitlabHostname both_sinks <> ""
         /\ 0 < GitlabProjectID both_sinks).
Proof.
  intros [_ H].
  assert (Hin : (Gitlab, hello_world "v1.1.0")
                  ∈ [(Slack, hello_world "v1.1.0")]).
  { apply H. split; [discriminate|split; [discriminate|reflexivity]]. }
  apply list_elem_of_singleton in Hin. discriminate.
Qed.

Lemma gitlab_called_when_reached :
  filtered_out has_rc gitlab_only (hello_world "v1.1.0") = false /\
  (Gitlab, hello_world "v1.1.0")
    ∈ sends (body has_rc nat delivers delivers gitlab_only (slack_of gitlab_only)
               (gitlab_of gitlab_only AllowInfo) (hello_world "v1.1.0") 0%nat).1.1.
Proof.
  split; [reflexivity|].
  apply (proj1 (gitlab_called_iff_configured_and_reached has_rc nat delivers
                  delivers id gitlab_only)); [reflexivity|by left|].
  split; [discriminate|split; [discriminate|reflexivity]].
Defined.

(** C5 as stated fails: with an empty forge token and a watch list, [main]
    does not exit, it reaches its loop. *)
Lemma empty_token_does_not_exit :
  GithubToken no_token = "" /\
  outcome nat (main has_rc nat delivers delivers id no_token one_release 0%nat)
    <> Exited 1.
Proof. split; [reflexivity|]. vm_compute. discriminate. Qed.

Lemma exit_1_on_empty_watch_list :
  Repositories no_repos = [] /\
  outcome nat (main has_rc nat delivers delivers id no_repos one_release 0%nat)
    = Exited 1.
Proof.
  split; [reflexivity|].
  apply (exit_1_iff_no_repositories has_rc nat delivers delivers id no_repos
           one_release 0%nat). reflexivity.
Defined.

(** C6 as stated fails: the warning written when the chat webhook fails and
    the one written when the issue tracker fails carry the same fields, a
    message and the error, and neither names its sink. *)
Lemma failure_records_do_not_name_the_sink :
  let chat :=
    trace nat (main has_rc nat answers_500 delivers id both_sinks one_release 0%nat) in
  let tracker :=
    trace nat (main has_rc nat delivers answers_500 id gitlab_only one_release 0%nat) in
  sends chat = [(Slack, hello_world "v1.1.0")] /\
  sends tracker = [(Gitlab, hello_world "v1.1.0")] /\
  keyvals <$> written AllowWarn chat =
    [[("msg", VString "failed to send release to messenger");
      ("err", VError "unexpected status code 500")]] /\
  keyvals <$> written AllowWarn tracker = keyvals <$> written AllowWarn chat.
Proof. vm_compute. repeat split. Qed.

Lemma failure_record_at_500 :
  filtered_out has_rc both_sinks (hello_world "v1.1.0") = false /\
  records (body has_rc nat answers_500 delivers both_sinks (slack_of both_sinks)
             (gitlab_of both_sinks AllowInfo) (hello_world "v1.1.0") 0%nat).1.1
  = [slack_failed "unexpected status code 500"].
Proof.
  split; [reflexivity|].
  apply (proj1 (failure_record_has_message_and_error has_rc nat answers_500
                  delivers both_sinks (slack_of both_sinks)
                  (gitlab_of both_sinks AllowInfo) (hello_world "v1.1.0") 0%nat
                  eq_refl) _ 0%nat); reflexivity.
Defined.

Lemma first_tick_at_v1_0_0 :
  Checker.emitted (Checker.Run ["octocat/hello-world"] [at_tag "v1.0.0"]).1 = [] /\
  (Checker.Run ["octocat/hello-world"] [at_tag "v1.0.0"]).2
    !! ("octocat", "hello-world") = Some "v1.0.0".
Proof.
  destruct (first_tick_only_records_baseline ["octocat/hello-world"]
              (at_tag "v1.0.0")) as [H0 H1].
  split; [exact H0|].
  apply (H1 ("octocat", "hello-world") "https://github.com/octocat/hello-world"
            (release_of "v1.0.0"));
    [apply list_elem_of_singleton|]; reflexivity.
Defined.



Lemma unrecognised_level_verbose :
  ToLower id (LogLevel verbose_level) = "verbose" /\
  filter_level nat
    (main has_rc nat delivers delivers id verbose_level one_release 0%nat)
  = AllowInfo /\
  outcome nat
    (main has_rc nat delivers delivers id verbose_level one_release 0%nat)
  = Receiving /\
  case_variant "debug" (LogLevel no_sink_debug) = true /\
  filter_level nat
    (main has_rc nat delivers delivers id no_sink_debug one_release 0%nat)
  = AllowDebug.
Proof.
  split; [reflexivity|].
  destruct (proj1 (unrecognised_log_level_selects_info has_rc nat delivers
                     delivers id verbose_level)
              ltac:(discriminate) ltac:(discriminate) ltac:(discriminate)
              one_release 0%nat) as [Hf Ho].
  split; [exact Hf|]. split; [apply Ho; [discriminate|reflexivity]|].
  split; [reflexivity|].
  destruct (unrecognised_log_level_selects_info has_rc nat delivers delivers id
              no_sink_debug) as (_ & _ & _ & Hv & _).
  exact (proj1 (Hv one_release 0%nat) eq_refl).
Defined.

(** C10 as stated fails: with no sink enabled, the stability filter on and
    LOG_LEVEL debug, the loop is not silent: it writes the debug record of
    line 91 for the release candidate it discards. *)
Lemma no_sink_debug_record_is_written :
  enabled_sinks no_sink_debug = [] /\
  written
    (filter_level nat
       (main has_rc nat delivers delivers id no_sink_debug
          {| sent := [hello_world "v1.1.0-rc.1"]; closed := false |} 0%nat))
    (dispatch has_rc nat delivers delivers id no_sink_debug
       [hello_world "v1.1.0-rc.1"] 0%nat).1
  = [not_notifying (hello_world "v1.1.0-rc.1")].
Proof. vm_compute. split; reflexivity. Qed.

Lemma no_sink_run_is_empty :
  SlackHook no_sink = "" /\
  dispatch has_rc nat delivers delivers id no_sink
    [hello_world "v1.1.0"; prometheus "v2.0.0-rc.1"] 0%nat = ([], 0%nat).
Proof.
  split; [reflexivity|].
  refine (proj1 (no_sink_enabled_events_discarded has_rc nat delivers delivers id
                   no_sink [hello_world "v1.1.0"; prometheus "v2.0.0-rc.1"]
                   0%nat eq_refl _)).
  intros (H & _). by apply H.
Defined.

(** ** The scenarios of the specification, evaluated *)

(** The default LOG_LEVEL takes the default branch of the switch. *)
Example default_level_is_info :
  NewFilter (ToLower id (LogLevel initial_Config)) = AllowInfo.
Proof. reflexivity. Qed.

Example mixed_case_levels :
  NewFilter (ToLower id "DEBUG") = AllowDebug /\
  NewFilter (ToLower id "Warn") = AllowWarn /\
  NewFilter (ToLower id "eRRoR") = AllowError /\
  NewFilter (ToLower id "warning") = AllowInfo.
Proof. repeat split. Qed.

(** Scenarios 1 to 3: priming, an unchanged tag, then a new tag. *)
Example three_ticks :
  Checker.emitted
    (Checker.Run ["octocat/hello-world"]
       [at_tag "v1.0.0"; at_tag "v1.0.0"; at_tag "v1.1.0"]).1
  = [hello_world "v1.1.0"].
Proof. vm_compute. reflexivity. Qed.

(** Scenario 6: a bad entry is rejected, the others are kept; an entry
    that differs by case or surrounding blanks is a duplicate. *)
Example ingest_skips_bad_entries :
  Checker.ingest ["bad-entry"; " octocat/hello-world "; "Octocat/Hello-World";
                  "a/b/c"; "prometheus/prometheus"]
  = [("octocat", "hello-world"); ("prometheus", "prometheus")] /\
  Checker.rejected ["bad-entry"; " octocat/hello-world "; "a/b/c"]
  = [Checker.Rejected "bad-entry"; Checker.Rejected "a/b/c"].
Proof. vm_compute. split; reflexivity. Qed.

(** Scenarios 3 and 5 at the Dispatcher: the chat webhook refuses the
    first event and accepts the second, the third is a release candidate. *)
Example dispatch_of_three_events :
  trace nat
    (main has_rc nat fails_for_octocat delivers id both_sinks
       {| sent := [hello_world "v1.1.0"; prometheus "v2.0.0";
                   prometheus "v2.1.0-rc.0"];
          closed := false |} 0%nat)
  = [Log waiting;
     Send Slack (hello_world "v1.1.0");
     Log (slack_failed "unexpected status code 500");
     Send Slack (prometheus "v2.0.0");
     Send Gitlab (prometheus "v2.0.0");
     Log (not_notifying (prometheus "v2.1.0-rc.0"))].
Proof. vm_compute. reflexivity. Qed.

(** ** [main] and the code it is linked with *)

Lemma range_ext (World : Type) (f f' : Repository -> Iter World unit)
  (l : list Repository) (w : World) :
  (forall r w', f r w' = f' r w') -> range World f l w = range World f' l w.
Proof.
  intros Hf. revert w. induction l as [|r l IH]; intros w; [reflexivity|].
  cbn. rewrite Hf. destruct (f' r w) as [[t1 w1] fin]. by rewrite IH.
Qed.

(** X10. [main] calls a sink only through a sender that is configured:
    [slack.Send] with a non-empty hook, [gitlab.Send] with a non-empty
    token and host name and a positive project id. Two pairs of [Send]
    methods that agree on such senders give the same run, whatever they do
    on the others. *)
Theorem sinks_called_with_configured_senders_only
  (IsNonstable : Release -> bool) (World : Type)
  (slack_Send slack_Send' : SlackSender -> Repository -> World -> option error * World)
  (gitlab_Send gitlab_Send' : GitlabSender -> Repository -> World -> option error * World)
  (unicode_ToLower : string -> string)
  (c : Config) (releases : Channel) (w : World) :
  (forall sl r w', Hook sl <> "" -> slack_Send sl r w' = slack_Send' sl r w') ->
  (forall g r w', APIToken g <> "" -> Hostname g <> "" -> 0 < ProjectID g ->
                  gitlab_Send g r w' = gitlab_Send' g r w') ->
  main IsNonstable World slack_Send gitlab_Send unicode_ToLower c releases w
  = main IsNonstable World slack_Send' gitlab_Send' unicode_ToLower c releases w.
Proof.
  intros Hs Hg. unfold main, dispatch.
  destruct (length (Repositories c) =? 0)%nat; [reflexivity|].
  rewrite (range_ext World _
             (body IsNonstable World slack_Send' gitlab_Send' c (slack_of c)
                (gitlab_of c (NewFilter (ToLower unicode_ToLower (LogLevel c))))));
    [reflexivity|].
  intros r w'. destruct (filtered_out IsNonstable c r) eqn:Hf.
  - by rewrite !body_filtered.
  - rewrite !body_passed by done.
    destruct (slack_configured c) eqn:Hsc.
    + apply slack_configured_iff in Hsc.
      rewrite <- (Hs (slack_of c) r w' Hsc).
      destruct (slack_Send (slack_of c) r w') as [[e|] w1]; [reflexivity|].
      destruct (gitlab_configured c) eqn:Hgc; [|reflexivity].
      apply gitlab_configured_iff in Hgc as (Ht & Hh & Hp).
      by rewrite <- (Hg (gitlab_of c (NewFilter (ToLower unicode_ToLower (LogLevel c)))) r w1 Ht Hh Hp).
    + destruct (gitlab_configured c) eqn:Hgc; [|reflexivity].
      apply gitlab_configured_iff in Hgc as (Ht & Hh & Hp).
      by rewrite <- (Hg (gitlab_of c (NewFilter (ToLower unicode_ToLower (LogLevel c)))) r w' Ht Hh Hp).
Qed.

(** X11. With the ignore-non-stable option off the classifier plays no
    part: any two classifiers give the same run. *)
Theorem classifier_unused_when_option_off
  (IsNonstable IsNonstable' : Release -> bool) (World : Type)
  (slack_Send : SlackSender -> Repository -> World -> option error * World)
  (gitlab_Send : GitlabSender -> Repository -> World -> option error * World)
  (unicode_ToLower : string -> string)
  (c : Config) (releases : Channel) (w : World) :
  IgnoreNonstable c = false ->
  main IsNonstable World slack_Send gitlab_Send unicode_ToLower c releases w
  = main IsNonstable' World slack_Send gitlab_Send unicode_ToLower c releases w.
Proof.
  intros Hi. unfold main, dispatch.
  destruct (length (Repositories c) =? 0)%nat; [reflexivity|].
  rewrite (range_ext World _
             (body IsNonstable' World slack_Send gitlab_Send c (slack_of c)
                (gitlab_of c (NewFilter (ToLower unicode_ToLower (LogLevel c))))));
    [reflexivity|].
  intros r w'.
  rewrite !body_passed; [reflexivity|..]; unfold filtered_out; by rewrite Hi.
Qed.

(** ** The further properties at sample inputs *)

Lemma send_in_sample_run_is_for_received_event :
  hello_world "v1.1.0" ∈ sent one_release /\
  filtered_out has_rc both_sinks (hello_world "v1.1.0") = false /\
  Gitlab ∈ enabled_sinks both_sinks.
Proof.
  destruct (sends_only_for_received_passing_events has_rc nat delivers delivers
              id both_sinks one_release 0%nat Gitlab (hello_world "v1.1.0"))
    as (H1 & H2 & H3 & _); [|done].
  vm_compute. right. left.
Defined.

Lemma healthy_sinks_sample :
  (dispatch has_rc nat delivers delivers id both_sinks
     [hello_world "v1.1.0"; prometheus "v2.1.0-rc.0"] 0%nat).1
  = [Send Slack (hello_world "v1.1.0"); Send Gitlab (hello_world "v1.1.0");
     Log (not_notifying (prometheus "v2.1.0-rc.0"))].
Proof.
  apply (healthy_sinks_deliver_to_all has_rc nat delivers delivers id both_sinks
           [hello_world "v1.1.0"; prometheus "v2.1.0-rc.0"] 0%nat);
    intros; reflexivity.
Defined.

Lemma chat_gets_every_passing_event_despite_failures :
  head (enabled_sinks both_sinks) = Some Slack /\
  delivered Slack
    (dispatch has_rc nat answers_500 delivers id both_sinks
       [hello_world "v1.1.0"; prometheus "v2.1.0-rc.0"; prometheus "v2.0.0"]
       0%nat).1
  = [hello_world "v1.1.0"; prometheus "v2.0.0"].
Proof.
  split; [reflexivity|].
  apply (first_enabled_sink_gets_every_passing_event has_rc nat answers_500
           delivers id both_sinks
           [hello_world "v1.1.0"; prometheus "v2.1.0-rc.0"; prometheus "v2.0.0"]
           0%nat Slack).
  reflexivity.
Defined.

Lemma tracker_gets_less_than_chat_sample :
  slack_configured both_sinks = true /\
  (length (delivered Gitlab
             (dispatch has_rc nat fails_for_octocat delivers id both_sinks
                [hello_world "v1.1.0"; prometheus "v2.0.0"] 0%nat).1)
   <= length (delivered Slack
                (dispatch has_rc nat fails_for_octocat delivers id both_sinks
                   [hello_world "v1.1.0"; prometheus "v2.0.0"] 0%nat).1))%nat.
Proof.
  split; [reflexivity|].
  exact (proj2 (proj2 (tracker_gets_subsequence_of_chat has_rc nat
                         fails_for_octocat delivers id both_sinks
                         [hello_world "v1.1.0"; prometheus "v2.0.0"] 0%nat)
                  eq_refl)).
Defined.

Lemma warning_in_sample_run_is_a_failed_send :
  Repositories both_sinks <> [] /\
  (slack_failed "unexpected status code 500" = waiting \/
   exists before r after,
     sent one_release = before ++ r :: after /\
     ((filtered_out has_rc both_sinks r = true /\
       slack_failed "unexpected status code 500" = not_notifying r) \/
      (filtered_out has_rc both_sinks r = false /\
       slack_configured both_sinks = true /\
       exists e w1,
         answers_500 (slack_of both_sinks) r
           (dispatch has_rc nat answers_500 delivers id both_sinks before 0%nat).2
         = (Some e, w1) /\
         slack_failed "unexpected status code 500" = slack_failed e) \/
      (filtered_out has_rc both_sinks r = false /\
       gitlab_configured both_sinks = true /\
       exists e w1 w2,
         (if slack_configured both_sinks
          then answers_500 (slack_of both_sinks) r
                 (dispatch has_rc nat answers_500 delivers id both_sinks before
                    0%nat).2 = (None, w1)
          else w1 = (dispatch has_rc nat answers_500 delivers id both_sinks
                       before 0%nat).2) /\
         delivers (gitlab_of both_sinks (NewFilter (ToLower id (LogLevel both_sinks))))
           r w1 = (Some e, w2) /\
         slack_failed "unexpected status code 500" = gitlab_failed e))).
Proof.
  split; [discriminate|].
  apply (running_main_writes_four_kinds_of_records has_rc nat answers_500
           delivers id both_sinks one_release 0%nat); [discriminate|].
  vm_compute. right. left.
Defined.

Lemma error_level_sample :
  ToLower id "ERROR" = "error" /\
  written AllowError
    (trace nat
       (main has_rc nat answers_500 delivers id
          {| GithubToken := "ghp_token"; GitlabAPIToken := "";
             GitlabHostname := ""; GitlabProjectID := 0; GitlabLabels := "";
             Interval := 3600000000000; LogLevel := "ERROR";
             Repositories := ["octocat/hello-world"];
             SlackHook := "https://hooks.example.org/T0";
             IgnoreNonstable := true |} one_release 0%nat)) = [].
Proof.
  split; [reflexivity|].
  apply (error_level_silences_running_main has_rc nat answers_500 delivers id
           {| GithubToken := "ghp_token"; GitlabAPIToken := "";
              GitlabHostname := ""; GitlabProjectID := 0; GitlabLabels := "";
              Interval := 3600000000000; LogLevel := "ERROR";
              Repositories := ["octocat/hello-world"];
              SlackHook := "https://hooks.example.org/T0";
              IgnoreNonstable := true |} one_release 0%nat);
    [reflexivity|discriminate].
Defined.

Lemma empty_watch_list_sample :
  Repositories no_repos = [] /\
  trace nat (main has_rc nat delivers delivers id no_repos one_release 0%nat)
  = [Log no_repositories].
Proof.
  split; [reflexivity|].
  apply (empty_watch_list_error_is_always_written has_rc nat delivers delivers
           id no_repos one_release 0%nat). reflexivity.
Defined.

Lemma trace_grows_sample :
  Repositories both_sinks <> [] /\
  trace nat
    (main has_rc nat delivers delivers id both_sinks
       {| sent := [hello_world "v1.1.0"] ++ [prometheus "v2.0.0"];
          closed := false |} 0%nat)
  = trace nat
      (main has_rc nat delivers delivers id both_sinks
         {| sent := [hello_world "v1.1.0"]; closed := false |} 0%nat)
    ++ [Send Slack (prometheus "v2.0.0"); Send Gitlab (prometheus "v2.0.0")].
Proof.
  split; [discriminate|].
  apply (trace_grows_with_channel has_rc nat delivers delivers id both_sinks
           [hello_world "v1.1.0"] [prometheus "v2.0.0"] false false 0%nat).
  discriminate.
Defined.

Lemma strict_sinks_give_the_same_run :
  main has_rc nat delivers delivers id both_sinks one_release 0%nat
  = main has_rc nat slack_needs_hook gitlab_needs_project id both_sinks
      one_release 0%nat.
Proof.
  apply sinks_called_with_configured_senders_only.
  - intros sl r w' H. unfold delivers, slack_needs_hook.
    by rewrite bool_decide_eq_false_2.
  - intros g r w' _ _ H. unfold delivers, gitlab_needs_project.
    destruct (Z.leb_spec (ProjectID g) 0); [lia|reflexivity].
Defined.

Lemma classifier_unused_sample :
  IgnoreNonstable gitlab_only = false /\
  main has_rc nat delivers delivers id gitlab_only one_release 0%nat
  = main (fun _ => true) nat delivers delivers id gitlab_only one_release 0%nat.
Proof.
  split; [reflexivity|].
  apply classifier_unused_when_option_off. reflexivity.
Defined.
